(** * Lobster: plan catalog and support tickets

    A shallow embedding of the plan catalog ([src/unnamed/part_000]) and of
    the support-ticket code ([src/support.go]) of the lobster billing panel.
    Each SQL table is a list of rows (or a [gmap] keyed by its primary key);
    each SQL statement is a function on the database state; [ORDER BY] is an
    insertion sort on the ordering column. *)

From Stdlib Require Import ZArith List Sorting.Sorted Sorting.Permutation
  String Ascii Lia.
From stdpp Require Import base gmap strings.
Import ListNotations.

Open Scope Z_scope.

(** Go [error] values produced by the excerpt. [LError k] is
    [L.Error(k)] and [LErrorf k a] is [L.Errorf(k, a)] (localized messages);
    [ErrRegionNotExist r] is the [fmt.Errorf("specified region %s does not
    exist", r)] value; [ErrProvider] is an error passed through from a
    provider. *)
Inductive go_error :=
| ErrRegionNotExist (region : string)
| LError (key : string)
| LErrorf (key arg : string)
| ErrProvider (msg : string).

(** ** [ORDER BY col]: a sort on an integer key *)
Module Sql.
Section OrderBy.
Context {A : Type} (key : A -> Z).

Fixpoint insert_by (x : A) (l : list A) : list A :=
  match l with
  | [] => [x]
  | y :: l' => if Z.leb (key x) (key y) then x :: l else y :: insert_by x l'
  end.

Fixpoint order_by (l : list A) : list A :=
  match l with
  | [] => []
  | x :: l' => insert_by x (order_by l')
  end.

Lemma insert_by_perm (x : A) (l : list A) : Permutation (insert_by x l) (x :: l).
Proof.
  induction l as [|y l IH]; simpl; [reflexivity|].
  destruct (Z.leb (key x) (key y)); [reflexivity|].
  rewrite IH. apply perm_swap.
Qed.

Lemma order_by_perm (l : list A) : Permutation (order_by l) l.
Proof.
  induction l as [|x l IH]; simpl; [reflexivity|].
  rewrite insert_by_perm, IH. reflexivity.
Qed.

Definition key_le (a b : A) : Prop := key a <= key b.

Lemma insert_by_hdrel (y x : A) (l : list A) :
  HdRel key_le y l -> key_le y x -> HdRel key_le y (insert_by x l).
Proof.
  intros Hh Hyx. destruct l as [|z l]; simpl.
  - constructor. exact Hyx.
  - destruct (Z.leb (key x) (key z)); constructor; [exact Hyx|].
    inversion Hh; assumption.
Qed.

Lemma insert_by_sorted (x : A) (l : list A) :
  Sorted key_le l -> Sorted key_le (insert_by x l).
Proof.
  induction 1 as [|y l Hs IH Hh]; simpl.
  - repeat constructor.
  - destruct (Z.leb (key x) (key y)) eqn:E.
    + constructor; [constructor; assumption|].
      constructor. unfold key_le. apply Z.leb_le in E. exact E.
    + constructor; [exact IH|].
      apply insert_by_hdrel; [exact Hh|].
      unfold key_le. apply Z.leb_gt in E. lia.
Qed.

Lemma order_by_sorted (l : list A) : Sorted key_le (order_by l).
Proof.
  induction l as [|x l IH]; simpl; [constructor|].
  apply insert_by_sorted. exact IH.
Qed.
End OrderBy.

Lemma sorted_map_key {A : Type} (key : A -> Z) (l : list A) :
  Sorted (Sql.key_le key) l -> Sorted Z.le (map key l).
Proof.
  induction 1 as [|x l Hs IH Hh]; simpl; constructor; [exact IH|].
  destruct Hh as [|y l' Hxy]; simpl; constructor. exact Hxy.
Qed.

Lemma nodup_map_filter {A B : Type} (f : A -> B) (P : A -> bool) (l : list A) :
  NoDup (map f l) -> NoDup (map f (List.filter P l)).
Proof.
  induction l as [|x l IH]; simpl; [auto|].
  intros Hnd. inversion Hnd as [|? ? Hnin Hnd']; subst.
  destruct (P x); simpl; [|auto].
  constructor; [|auto].
  intros Hin. apply Hnin. rewrite list_elem_of_In in Hin |- *.
  apply in_map_iff in Hin as (y & Hy & Hin).
  apply filter_In in Hin as [Hin _]. rewrite <- Hy. apply in_map. exact Hin.
Qed.

(** [ORDER BY] on several columns: an insertion sort on a boolean
    "not after" comparison. *)
Section SortBy.
Context {A : Type} (leb : A -> A -> bool).

Fixpoint insert_cmp (x : A) (l : list A) : list A :=
  match l with
  | [] => [x]
  | y :: l' => if leb x y then x :: l else y :: insert_cmp x l'
  end.

Fixpoint sort_by (l : list A) : list A :=
  match l with
  | [] => []
  | x :: l' => insert_cmp x (sort_by l')
  end.
End SortBy.

End Sql.

(** ** Plan catalog ([src/unnamed/part_000]) *)
Module Plans.

(** A row of table [plans]. *)
Record plan_row := mk_plan_row {
  pr_id : Z; pr_name : string; pr_price : Z; pr_ram : Z; pr_cpu : Z;
  pr_storage : Z; pr_bandwidth : Z; pr_global : bool; pr_enabled : bool }.

(** A row of table [region_plans]. *)
Record region_plan_row := mk_region_plan_row {
  rp_plan_id : Z; rp_region : string; rp_identification : string }.

(** A row of table [plan_metadata]. *)
Record plan_metadata_row := mk_plan_metadata_row {
  pm_plan_id : Z; pm_k : string; pm_v : string }.

(** The Go struct [Plan]; [None] is a nil map. *)
Record Plan := mkPlan {
  Id : Z; Name : string; Price : Z; Ram : Z; Cpu : Z; Storage : Z;
  Bandwidth : Z; Global : bool; Enabled : bool;
  Identification : string;
  RegionPlans : option (gmap string string);
  Metadata : option (gmap string string) }.

(** The three tables, the [AUTO_INCREMENT] counter of [plans] (the id
    [LastInsertId] returns for the next insert) and the schema default of
    [plans.enabled], which [planCreate] does not set. *)
Record plan_db := mk_plan_db {
  plans : list plan_row;
  region_plans : list region_plan_row;
  plan_metadata : list plan_metadata_row;
  plans_next_id : Z;
  plans_enabled_default : bool }.

Definition set_plans (db : plan_db) (ps : list plan_row) : plan_db :=
  mk_plan_db ps (region_plans db) (plan_metadata db) (plans_next_id db)
    (plans_enabled_default db).
Definition set_region_plans (db : plan_db) (rps : list region_plan_row) : plan_db :=
  mk_plan_db (plans db) rps (plan_metadata db) (plans_next_id db)
    (plans_enabled_default db).

(** The value stored in [regionInterfaces]: a [VmInterface], which may
    also implement [VMIPlans]. *)
Inductive vm_interface := VmBasic | VmPlanList.

(** [planListHelper]: one [Plan] per scanned row; the maps stay nil. *)
Definition scan_plan (row : plan_row * string) : Plan :=
  let '(p, ident) := row in
  mkPlan (pr_id p) (pr_name p) (pr_price p) (pr_ram p) (pr_cpu p)
    (pr_storage p) (pr_bandwidth p) (pr_global p) (pr_enabled p) ident None None.

Definition planListHelper (rows : list (plan_row * string)) : list Plan :=
  map scan_plan rows.

Definition planList (db : plan_db) : list Plan :=
  planListHelper (map (fun p => (p, ""%string)) (Sql.order_by pr_id (plans db))).

(** [region_plans.plan_id = ? AND region_plans.region = ?] *)
Definition rp_matches (planId : Z) (region : string) (b : region_plan_row) : bool :=
  Z.eqb (rp_plan_id b) planId && String.eqb (rp_region b) region.

(** [plans LEFT JOIN region_plans ON plans.id = region_plans.plan_id AND
    region_plans.region = ?]: the identification column is [None] (NULL)
    for a plan without a matching row. *)
Definition left_join_region (region : string) (db : plan_db)
  : list (plan_row * option string) :=
  flat_map (fun p =>
    match List.filter (rp_matches (pr_id p) region) (region_plans db) with
    | [] => [(p, None)]
    | bs => map (fun b => (p, Some (rp_identification b))) bs
    end) (plans db).

Definition is_not_null (o : option string) : bool :=
  match o with Some _ => true | None => false end.

(** [WHERE plans.enabled = 1 AND (plans.global = 1 OR
    region_plans.identification IS NOT NULL)] *)
Definition region_where (row : plan_row * option string) : bool :=
  pr_enabled (fst row) && (pr_global (fst row) || is_not_null (snd row)).

Definition ifnull (o : option string) : string :=
  match o with Some s => s | None => ""%string end.

Definition planListRegion (region : string) (db : plan_db) : list Plan :=
  planListHelper
    (map (fun row => (fst row, ifnull (snd row)))
       (Sql.order_by (fun row => pr_id (fst row))
          (List.filter region_where (left_join_region region db)))).

(** [planCreate]: [INSERT INTO plans ...]; returns [LastInsertId]. *)
Definition planCreate (name : string) (price ram cpu storage bandwidth : Z)
  (global : bool) (db : plan_db) : Z * plan_db :=
  let planId := plans_next_id db in
  (planId,
   mk_plan_db
     (plans db ++ [mk_plan_row planId name price ram cpu storage bandwidth
                     global (plans_enabled_default db)])
     (region_plans db) (plan_metadata db) (planId + 1) (plans_enabled_default db)).

(** [planDelete]: [DELETE FROM plans WHERE id = ?] *)
Definition planDelete (planId : Z) (db : plan_db) : plan_db :=
  set_plans db (List.filter (fun p => negb (Z.eqb (pr_id p) planId)) (plans db)).

Definition planEnable (planId : Z) (db : plan_db) : plan_db :=
  set_plans db (map (fun p => if Z.eqb (pr_id p) planId then
    mk_plan_row (pr_id p) (pr_name p) (pr_price p) (pr_ram p) (pr_cpu p)
      (pr_storage p) (pr_bandwidth p) (pr_global p) true else p) (plans db)).

Definition planDisable (planId : Z) (db : plan_db) : plan_db :=
  set_plans db (map (fun p => if Z.eqb (pr_id p) planId then
    mk_plan_row (pr_id p) (pr_name p) (pr_price p) (pr_ram p) (pr_cpu p)
      (pr_storage p) (pr_bandwidth p) (pr_global p) false else p) (plans db)).

(** [planAssociateRegion]: the region check, then the count-check upsert. *)
Definition planAssociateRegion (regionInterfaces : gmap string vm_interface)
  (planId : Z) (region identification : string) (db : plan_db)
  : plan_db * option go_error :=
  match regionInterfaces !! region with
  | None => (db, Some (ErrRegionNotExist region))
  | Some _ =>
      let count := length (List.filter (rp_matches planId region) (region_plans db)) in
      if Nat.eqb count 1 then
        (set_region_plans db
           (map (fun b => if rp_matches planId region b
                          then mk_region_plan_row (rp_plan_id b) (rp_region b) identification
                          else b) (region_plans db)), None)
      else
        (set_region_plans db
           (region_plans db ++ [mk_region_plan_row planId region identification]), None)
  end.

(** [planDeassociateRegion] *)
Definition planDeassociateRegion (planId : Z) (region : string) (db : plan_db) : plan_db :=
  set_region_plans db (List.filter (fun b => negb (rp_matches planId region b)) (region_plans db)).

(** [region_plans.region = ? AND region_plans.identification = ?] *)
Definition rp_bound (region identification : string) (b : region_plan_row) : bool :=
  String.eqb (rp_region b) region && String.eqb (rp_identification b) identification.

(** One iteration of the loop of [planAutopopulate]. *)
Definition autopopulate_one (regionInterfaces : gmap string vm_interface)
  (region : string) (db : plan_db) (plan : Plan) : plan_db :=
  let count := length (List.filter (rp_bound region (Identification plan)) (region_plans db)) in
  if Nat.eqb count 0 then
    let '(planId, db1) := planCreate (Name plan) (Price plan) (Ram plan) (Cpu plan)
                            (Storage plan) (Bandwidth plan) false db in
    fst (planAssociateRegion regionInterfaces planId region (Identification plan) db1)
  else db.

(** [planAutopopulate]; [planListResult] is what [vmi.PlanList()] returns
    on this call (an error or the provider's plans). *)
Definition planAutopopulate (regionInterfaces : gmap string vm_interface)
  (planListResult : go_error + list Plan) (region : string) (db : plan_db)
  : plan_db * option go_error :=
  match regionInterfaces !! region with
  | None => (db, Some (ErrRegionNotExist region))
  | Some VmBasic => (db, Some (LError "region_plans_unsupported"))
  | Some VmPlanList =>
      match planListResult with
      | inl err => (db, Some err)
      | inr ps => (fold_left (autopopulate_one regionInterfaces region) ps db, None)
      end
  end.

(** [plan.RegionPlans = ...] and [plan.Metadata = ...] *)
Definition with_region_plans (plan : Plan) (m : option (gmap string string)) : Plan :=
  mkPlan (Id plan) (Name plan) (Price plan) (Ram plan) (Cpu plan) (Storage plan)
    (Bandwidth plan) (Global plan) (Enabled plan) (Identification plan) m (Metadata plan).
Definition with_metadata (plan : Plan) (m : option (gmap string string)) : Plan :=
  mkPlan (Id plan) (Name plan) (Price plan) (Ram plan) (Cpu plan) (Storage plan)
    (Bandwidth plan) (Global plan) (Enabled plan) (Identification plan)
    (RegionPlans plan) m.

(** [LoadRegionPlans]: nothing for a global plan; otherwise a fresh map
    filled row by row from [SELECT region, identification FROM region_plans
    WHERE plan_id = ?] (a later row overwrites an earlier one). *)
Definition LoadRegionPlans (db : plan_db) (plan : Plan) : Plan :=
  if Global plan then plan
  else with_region_plans plan
         (Some (fold_left (fun m b => <[rp_region b := rp_identification b]> m)
                  (List.filter (fun b => Z.eqb (rp_plan_id b) (Id plan)) (region_plans db))
                  ∅)).

(** [LoadMetadata] *)
Definition LoadMetadata (db : plan_db) (plan : Plan) : Plan :=
  with_metadata plan
    (Some (fold_left (fun m r => <[pm_k r := pm_v r]> m)
             (List.filter (fun r => Z.eqb (pm_plan_id r) (Id plan)) (plan_metadata db))
             ∅)).

(** [planGet]: [SELECT ... FROM plans WHERE id = ?], nil unless exactly
    one row. *)
Definition planGet (planId : Z) (db : plan_db) : option Plan :=
  match planListHelper (map (fun p => (p, ""%string))
                          (List.filter (fun p => Z.eqb (pr_id p) planId) (plans db))) with
  | [plan] => Some plan
  | _ => None
  end.

(** [planGetRegion]: the query of [planListRegion] with [plans.id = ?]
    added to its [WHERE]; nil unless exactly one row. *)
Definition planGetRegion (region : string) (planId : Z) (db : plan_db) : option Plan :=
  match planListHelper
          (map (fun row => (fst row, ifnull (snd row)))
             (List.filter (fun row => Z.eqb (pr_id (fst row)) planId && region_where row)
                (left_join_region region db))) with
  | [plan] => Some plan
  | _ => None
  end.

(** [plan_metadata.plan_id = ? AND k = ?] *)
Definition pm_matches (planId : Z) (k : string) (r : plan_metadata_row) : bool :=
  Z.eqb (pm_plan_id r) planId && String.eqb (pm_k r) k.

Definition set_plan_metadata (db : plan_db) (pms : list plan_metadata_row) : plan_db :=
  mk_plan_db (plans db) (region_plans db) pms (plans_next_id db) (plans_enabled_default db).

(** [planSetMetadata]: the count-check upsert. *)
Definition planSetMetadata (planId : Z) (k v : string) (db : plan_db) : plan_db :=
  let count := length (List.filter (pm_matches planId k) (plan_metadata db)) in
  if Nat.eqb count 1 then
    set_plan_metadata db
      (map (fun r => if pm_matches planId k r
                     then mk_plan_metadata_row (pm_plan_id r) (pm_k r) v else r)
         (plan_metadata db))
  else
    set_plan_metadata db (plan_metadata db ++ [mk_plan_metadata_row planId k v]).

(** [planUnsetMetadata] *)
Definition planUnsetMetadata (planId : Z) (k : string) (db : plan_db) : plan_db :=
  set_plan_metadata db (List.filter (fun r => negb (pm_matches planId k r)) (plan_metadata db)).

End Plans.

(** ** Support tickets ([src/support.go]) *)
Module Support.

Module TM.
(** The Go struct [TicketMessage]; times are seconds. *)
Record TicketMessage := mkTicketMessage {
  Id : Z; Staff : bool; Message : string; Time : Z }.
End TM.

(** The Go struct [Ticket]. *)
Record Ticket := mkTicket {
  Id : Z; UserId : Z; Name : string; Status : string; Time : Z;
  ModifyTime : Z; Messages : list TM.TicketMessage }.

(** A row of table [tickets], stored under its primary key [id]. *)
Record ticket_row := mk_ticket_row {
  t_user_id : Z; t_name : string; t_status : string; t_time : Z;
  t_modify_time : Z }.

(** A row of table [ticket_messages]. *)
Record message_row := mk_message_row {
  m_id : Z; m_ticket_id : Z; m_staff : bool; m_message : string; m_time : Z }.

(** What [userDetails] reads of a user: its status ("new" until the
    account is provisioned). *)
Record user_row := mk_user_row { u_status : string }.

(** A call of [mailWrap(db, userId, template, TicketUpdateEmail{...}, false)];
    [userId = -1] addresses the staff. *)
Record mail := mk_mail {
  mail_user : Z; mail_template : string; mail_ticket : Z;
  mail_subject : string; mail_message : string }.

(** The tables, their [AUTO_INCREMENT] counters, the clock read by
    [NOW()], [cfg.Default.AdminEmail], the mails sent and the delayed
    replies scheduled by [go func() {...}()] (pairs [(userId, ticketId)]),
    not yet fired. *)
Record support_db := mk_support_db {
  tickets : gmap Z ticket_row;
  ticket_messages : list message_row;
  users : gmap Z user_row;
  tickets_next_id : Z;
  messages_next_id : Z;
  now : Z;
  admin_email : string;
  outbox : list mail;
  pending_replies : list (Z * Z) }.

Definition set_tickets (db : support_db) (ts : gmap Z ticket_row) : support_db :=
  mk_support_db ts (ticket_messages db) (users db) (tickets_next_id db)
    (messages_next_id db) (now db) (admin_email db) (outbox db) (pending_replies db).

Definition set_pending (db : support_db) (ps : list (Z * Z)) : support_db :=
  mk_support_db (tickets db) (ticket_messages db) (users db) (tickets_next_id db)
    (messages_next_id db) (now db) (admin_email db) (outbox db) ps.

Definition send_mail (db : support_db) (m : mail) : support_db :=
  mk_support_db (tickets db) (ticket_messages db) (users db) (tickets_next_id db)
    (messages_next_id db) (now db) (admin_email db) (outbox db ++ [m])
    (pending_replies db).

(** [go func() { time.Sleep(20 * time.Second); ticketReply(...) }()] *)
Definition schedule_reply (db : support_db) (userId ticketId : Z) : support_db :=
  set_pending db (pending_replies db ++ [(userId, ticketId)]).

(** [INSERT INTO ticket_messages (ticket_id, staff, message) VALUES (?, ?, ?)] *)
Definition insert_message (db : support_db) (ticketId : Z) (staff : bool)
  (message : string) : support_db :=
  mk_support_db (tickets db)
    (ticket_messages db ++ [mk_message_row (messages_next_id db) ticketId staff message (now db)])
    (users db) (tickets_next_id db) (messages_next_id db + 1) (now db)
    (admin_email db) (outbox db) (pending_replies db).

(** [ticketListHelper] on the rows of one query. *)
Definition scan_ticket (row : Z * ticket_row) : Ticket :=
  let '(id, t) := row in
  mkTicket id (t_user_id t) (t_name t) (t_status t) (t_time t) (t_modify_time t) [].

Definition ticketListHelper (rows : list (Z * ticket_row)) : list Ticket :=
  map scan_ticket rows.

Definition scan_message (m : message_row) : TM.TicketMessage :=
  TM.mkTicketMessage (m_id m) (m_staff m) (m_message m) (m_time m).

(** The first query of [ticketDetails]: [WHERE id = ?] for staff,
    [WHERE user_id = ? AND id = ?] otherwise. *)
Definition details_rows (db : support_db) (userId ticketId : Z) (staff : bool)
  : list (Z * ticket_row) :=
  match tickets db !! ticketId with
  | Some t =>
      if staff then [(ticketId, t)]
      else if Z.eqb (t_user_id t) userId then [(ticketId, t)] else []
  | None => []
  end.

(** [SELECT ... FROM ticket_messages WHERE ticket_id = ? ORDER BY id] *)
Definition ticket_thread (db : support_db) (ticketId : Z) : list TM.TicketMessage :=
  map scan_message
    (Sql.order_by m_id
       (List.filter (fun m => Z.eqb (m_ticket_id m) ticketId) (ticket_messages db))).

Definition ticketDetails (db : support_db) (userId ticketId : Z) (staff : bool)
  : option Ticket :=
  match ticketListHelper (details_rows db userId ticketId staff) with
  | [ticket] =>
      Some (mkTicket (Id ticket) (UserId ticket) (Name ticket) (Status ticket)
              (Time ticket) (ModifyTime ticket)
              (Messages ticket ++ ticket_thread db ticketId))
  | _ => None
  end.

Definition nl : string := String (Ascii.ascii_of_nat 10) EmptyString.

(** The body of the delayed automatic reply. *)
Definition auto_reply_message : string :=
  String.append "We have resolved this issue. Have a good day."
    (String.append nl (String.append nl
      (String.append "Regards," (String.append nl "Lobster Staff")))).

(** [len(message)]: Go strings are byte sequences. *)
Definition go_len (s : string) : Z := Z.of_nat (String.length s).

Definition ticketOpen (db : support_db) (userId : Z) (name message : string)
  (staff : bool) : support_db * (go_error + Z) :=
  if String.eqb name "" || String.eqb message "" then
    (db, inl (LError "subject_message_empty"))
  else if Z.ltb 16384 (go_len message) then
    (db, inl (LErrorf "message_too_long" "15,000"))
  else
    let user := users db !! userId in
    if negb staff && match user with
                     | None => true
                     | Some u => String.eqb (u_status u) "new"
                     end then
      (db, inl (LErrorf "ticket_for_support" (admin_email db)))
    else
      let ticketId := tickets_next_id db in
      let db1 := mk_support_db
                   (<[ticketId := mk_ticket_row userId name "open" (now db) (now db)]> (tickets db))
                   (ticket_messages db) (users db) (ticketId + 1) (messages_next_id db)
                   (now db) (admin_email db) (outbox db) (pending_replies db) in
      let db2 := insert_message db1 ticketId staff message in
      let db3 := if staff then
                   send_mail db2 (mk_mail userId "ticketOpen" ticketId name message)
                 else
                   schedule_reply
                     (send_mail db2 (mk_mail (-1) "ticketOpen" ticketId name message))
                     userId ticketId in
      (db3, inr ticketId).

(** [UPDATE tickets SET modify_time = NOW(), status = ? WHERE id = ?] *)
Definition update_status (db : support_db) (ticketId : Z) (status : string)
  : support_db :=
  match tickets db !! ticketId with
  | Some t =>
      set_tickets db (<[ticketId := mk_ticket_row (t_user_id t) (t_name t) status
                                     (t_time t) (now db)]> (tickets db))
  | None => db
  end.

Definition ticketReply (db : support_db) (userId ticketId : Z) (message : string)
  (staff : bool) : support_db * option go_error :=
  if String.eqb message "" then (db, Some (LError "message_empty"))
  else
    match ticketDetails db userId ticketId staff with
    | None => (db, Some (LError "invalid_ticket"))
    | Some ticket =>
        let db1 := insert_message db ticketId staff message in
        let '(newStatus, db2) :=
          if staff then
            ("answered"%string,
             send_mail db1 (mk_mail userId "ticketReply" ticketId (Name ticket) message))
          else
            ("open"%string,
             schedule_reply
               (send_mail db1 (mk_mail (-1) "ticketReply" ticketId (Name ticket) message))
               userId ticketId) in
        (update_status db2 ticketId newStatus, None)
    end.

(** [UPDATE tickets SET modify_time = NOW(), status = 'closed'
    WHERE id = ? AND user_id = ?] *)
Definition ticketClose (db : support_db) (userId ticketId : Z) : support_db :=
  match tickets db !! ticketId with
  | Some t =>
      if Z.eqb (t_user_id t) userId then
        set_tickets db (<[ticketId := mk_ticket_row (t_user_id t) (t_name t) "closed"
                                       (t_time t) (now db)]> (tickets db))
      else db
  | None => db
  end.

(** The scheduled goroutine number [k] wakes up: it is removed from the
    pending list and runs [ticketReply(db, userId, ticketId,
    auto_reply_message, true)]. [None]: there is no goroutine [k]. *)
Definition fire_pending (db : support_db) (k : nat)
  : option (support_db * option go_error) :=
  match pending_replies db !! k with
  | Some (userId, ticketId) =>
      Some (ticketReply (set_pending db (delete k (pending_replies db)))
              userId ticketId auto_reply_message true)
  | None => None
  end.

(** The rows of [tickets] as the table yields them. *)
Definition ticket_rows (db : support_db) : list (Z * ticket_row) := map_to_list (tickets db).

(** [ORDER BY modify_time DESC] *)
Definition by_modify_desc (row : Z * ticket_row) : Z := - t_modify_time (snd row).

Definition ticketList (db : support_db) (userId : Z) : list Ticket :=
  ticketListHelper
    (Sql.order_by by_modify_desc
       (List.filter (fun row => Z.eqb (t_user_id (snd row)) userId) (ticket_rows db))).

Definition ticketListActive (db : support_db) (userId : Z) : list Ticket :=
  ticketListHelper
    (Sql.order_by by_modify_desc
       (List.filter (fun row => Z.eqb (t_user_id (snd row)) userId &&
                                (String.eqb (t_status (snd row)) "open" ||
                                 String.eqb (t_status (snd row)) "answered"))
          (ticket_rows db))).

(** MySQL [FIELD(status, 'open', 'answered', 'closed')]: the position in
    the list, 0 when absent. *)
Definition status_field (status : string) : Z :=
  if String.eqb status "open" then 1
  else if String.eqb status "answered" then 2
  else if String.eqb status "closed" then 3
  else 0.

(** [ORDER BY FIELD(status, ...), modify_time DESC] *)
Definition all_order_leb (a b : Z * ticket_row) : bool :=
  Z.ltb (status_field (t_status (snd a))) (status_field (t_status (snd b))) ||
  (Z.eqb (status_field (t_status (snd a))) (status_field (t_status (snd b))) &&
   Z.leb (t_modify_time (snd b)) (t_modify_time (snd a))).

Definition ticketListAll (db : support_db) : list Ticket :=
  ticketListHelper (Sql.sort_by all_order_leb (ticket_rows db)).

End Support.

(** ** Start-up wiring ([src/lobster.go], [main]) *)
Module Main.

Record VmConfig := mkVmConfig {
  vm_Name : string; vm_Type : string; vm_ApiId : string; vm_ApiKey : string;
  vm_Url : string; vm_VirtType : string; vm_NodeGroup : string; vm_Insecure : bool;
  vm_Username : string; vm_Password : string; vm_Tenant : string;
  vm_NetworkId : string; vm_Region : string }.

Record PaymentConfig := mkPaymentConfig {
  pay_Name : string; pay_Type : string; pay_Business : string; pay_ReturnUrl : string;
  pay_CallbackSecret : string; pay_ApiKey : string; pay_ApiSecret : string }.

Record InterfaceConfig := mkInterfaceConfig {
  Vm : list VmConfig; Payment : list PaymentConfig }.

(** The provider values [main] builds, with the arguments it passes. *)
Inductive VmInterface :=
| MakeOpenStack (url username password tenant networkId : string)
| SolusVM (virtType nodeGroup url apiId apiKey : string) (insecure : bool)
| MakeLNDynamic (region apiId apiKey : string)
| VmFake.

Inductive PaymentInterface :=
| MakePaypalPayment (business returnUrl : string)
| MakeCoinbasePayment (callbackSecret apiKey apiSecret : string)
| FakePayment.

(** Why the process stopped: a [log.Fatalf] of [main], or a fatal error
    inside [lobster.MakeLobster] (the primary configuration), [app.Init()]
    or a provider constructor. *)
Inductive fatal_reason :=
| FatalLobster (err : string)
| FatalInit (err : string)
| FatalReadFile (path err : string)
| FatalParse (err : string)
| FatalVmType (type : string)
| FatalVmConstruct (name err : string)
| FatalPaymentType (type : string)
| FatalPaymentConstruct (name err : string).

(** The observable steps of [main]. *)
Inductive event :=
| MakeLobster (cfgPath : string)
| AppInit
| RegisterVmInterface (name : string) (vmi : VmInterface)
| RegisterPaymentInterface (name : string) (pi : PaymentInterface)
| Fatal (reason : fatal_reason)
| AppRun.

(** The [if vm.Type == ...] chain; [None] is the [log.Fatalf] branch. *)
Definition vm_interface_of (vm : VmConfig) : option VmInterface :=
  if String.eqb (vm_Type vm) "openstack" then
    Some (MakeOpenStack (vm_Url vm) (vm_Username vm) (vm_Password vm) (vm_Tenant vm)
            (vm_NetworkId vm))
  else if String.eqb (vm_Type vm) "solusvm" then
    Some (SolusVM (vm_VirtType vm) (vm_NodeGroup vm) (vm_Url vm) (vm_ApiId vm)
            (vm_ApiKey vm) (vm_Insecure vm))
  else if String.eqb (vm_Type vm) "lndynamic" then
    Some (MakeLNDynamic (vm_Region vm) (vm_ApiId vm) (vm_ApiKey vm))
  else if String.eqb (vm_Type vm) "fake" then Some VmFake
  else None.

Definition payment_interface_of (payment : PaymentConfig) : option PaymentInterface :=
  if String.eqb (pay_Type payment) "paypal" then
    Some (MakePaypalPayment (pay_Business payment) (pay_ReturnUrl payment))
  else if String.eqb (pay_Type payment) "coinbase" then
    Some (MakeCoinbasePayment (pay_CallbackSecret payment) (pay_ApiKey payment)
            (pay_ApiSecret payment))
  else if String.eqb (pay_Type payment) "fake" then Some FakePayment
  else None.

(** The constructors that are calls into other packages
    ([lobopenstack.MakeOpenStack], [lndynamic.MakeLNDynamic]) may stop the
    process on invalid parameters: [vmCtor] is the outcome of such a call
    ([Some err] when it is fatal). The [solusvm.SolusVM] literal and
    [new(vmfake.Fake)] cannot fail. *)
Definition vm_construct (vmCtor : VmInterface -> option string) (vmi : VmInterface)
  : option string :=
  match vmi with
  | MakeOpenStack _ _ _ _ _ | MakeLNDynamic _ _ _ => vmCtor vmi
  | SolusVM _ _ _ _ _ _ | VmFake => None
  end.

(** Likewise [lobster.MakePaypalPayment] and [lobster.MakeCoinbasePayment];
    [new(lobster.FakePayment)] cannot fail. *)
Definition payment_construct (payCtor : PaymentInterface -> option string)
  (pi : PaymentInterface) : option string :=
  match pi with
  | MakePaypalPayment _ _ | MakeCoinbasePayment _ _ _ => payCtor pi
  | FakePayment => None
  end.

(** The [for _, vm := range interfaceConfig.Vm] loop: its events, and
    whether it ran to the end. *)
Fixpoint register_vms (vmCtor : VmInterface -> option string) (vms : list VmConfig)
  : list event * bool :=
  match vms with
  | [] => ([], true)
  | vm :: rest =>
      match vm_interface_of vm with
      | None => ([Fatal (FatalVmType (vm_Type vm))], false)
      | Some vmi =>
          match vm_construct vmCtor vmi with
          | Some err => ([Fatal (FatalVmConstruct (vm_Name vm) err)], false)
          | None =>
              let '(evs, ok) := register_vms vmCtor rest in
              (RegisterVmInterface (vm_Name vm) vmi :: evs, ok)
          end
      end
  end.

Fixpoint register_payments (payCtor : PaymentInterface -> option string)
  (ps : list PaymentConfig) : list event * bool :=
  match ps with
  | [] => ([], true)
  | payment :: rest =>
      match payment_interface_of payment with
      | None => ([Fatal (FatalPaymentType (pay_Type payment))], false)
      | Some pi =>
          match payment_construct payCtor pi with
          | Some err => ([Fatal (FatalPaymentConstruct (pay_Name payment) err)], false)
          | None =>
              let '(evs, ok) := register_payments payCtor rest in
              (RegisterPaymentInterface (pay_Name payment) pi :: evs, ok)
          end
      end
  end.

(** [cfgPath]: [os.Args[1]] when given, "lobster.cfg" otherwise. *)
Definition cfg_path (args : list string) : string :=
  match args with
  | _ :: arg1 :: _ => arg1
  | _ => "lobster.cfg"%string
  end.

(** [main]. The outcomes of the calls whose code is outside this file are
    arguments: [makeLobster] of [lobster.MakeLobster(cfgPath)] (which
    loads the primary configuration; [Some err] when it is fatal), [init]
    of [app.Init()], [readFile] of [ioutil.ReadFile], [unmarshal] of
    [json.Unmarshal] into an [InterfaceConfig] (each an error or a value),
    and [vmCtor], [payCtor] of the provider constructors. *)
Definition main (args : list string) (makeLobster : string -> option string)
  (init : option string) (readFile : string -> string + string)
  (unmarshal : string -> string + InterfaceConfig)
  (vmCtor : VmInterface -> option string) (payCtor : PaymentInterface -> option string)
  : list event :=
  let cfgPath := cfg_path args in
  let interfacePath := String.append cfgPath ".json" in
  [MakeLobster cfgPath] ++
  match makeLobster cfgPath with
  | Some err => [Fatal (FatalLobster err)]
  | None =>
      [AppInit] ++
      match init with
      | Some err => [Fatal (FatalInit err)]
      | None =>
          match readFile interfacePath with
          | inl err => [Fatal (FatalReadFile interfacePath err)]
          | inr bytes =>
              match unmarshal bytes with
              | inl err => [Fatal (FatalParse err)]
              | inr interfaceConfig =>
                  let '(vmEvents, vmOk) := register_vms vmCtor (Vm interfaceConfig) in
                  vmEvents ++
                  if vmOk then
                    let '(payEvents, payOk) :=
                      register_payments payCtor (Payment interfaceConfig) in
                    payEvents ++ (if payOk then [AppRun] else [])
                  else []
              end
          end
      end
  end.

End Main.

(** * Properties of the plan catalog *)
Module PlanProps.
Import Plans.

(** A [region_plans] row binds plan [planId] in [region]. *)
Definition has_binding (db : plan_db) (planId : Z) (region : string) : Prop :=
  exists b, In b (region_plans db) /\ rp_plan_id b = planId /\ rp_region b = region.

(** Plan ids are unique (primary key) and below the [AUTO_INCREMENT]
    counter; no (plan, region) pair has two [region_plans] rows. *)
Definition plan_ids_ok (db : plan_db) : Prop :=
  NoDup (map pr_id (plans db)) /\ Forall (fun p => pr_id p < plans_next_id db) (plans db).

Definition bindings_unique (db : plan_db) : Prop :=
  forall planId region,
    (length (List.filter (rp_matches planId region) (region_plans db)) <= 1)%nat.

Definition plan_db_wf (db : plan_db) : Prop := plan_ids_ok db /\ bindings_unique db.

(** The rows the left join produces for one plan. *)
Definition join_rows (region : string) (db : plan_db) (p : plan_row)
  : list (plan_row * option string) :=
  match List.filter (rp_matches (pr_id p) region) (region_plans db) with
  | [] => [(p, None)]
  | bs => map (fun b => (p, Some (rp_identification b))) bs
  end.

(** The [UPDATE region_plans SET identification = ?] on one row. *)
Definition rp_update (planId : Z) (region identification : string)
  (b : region_plan_row) : region_plan_row :=
  if rp_matches planId region b
  then mk_region_plan_row (rp_plan_id b) (rp_region b) identification else b.

(** A catalog in which plan 1 already has two [region_plans] rows for
    "us-east" (the state a race between two concurrent callers leaves). *)
Definition ri_us_east : gmap string vm_interface := <["us-east" := VmBasic]> ∅.
Definition dup_binding_db : plan_db :=
  mk_plan_db [mk_plan_row 1 "Starter" 500 512 1 10 100 false true]
    [mk_region_plan_row 1 "us-east" "ext-123"; mk_region_plan_row 1 "us-east" "ext-123"]
    [] 2 true.

(** Every [region_plans] row names a plan id already handed out by the
    [AUTO_INCREMENT] counter of [plans]. *)
Definition bindings_below_next (db : plan_db) : Prop :=
  Forall (fun b => rp_plan_id b < plans_next_id db) (region_plans db).

Definition ri_eu_west : gmap string vm_interface := <["eu-west" := VmPlanList]> ∅.

(** Two plans the provider of "eu-west" lists, identified "x" and "y". *)
Definition provider_plans : list Plan :=
  [mkPlan 0 "small" 300 512 1 10 100 false true "x" None None;
   mkPlan 0 "large" 900 2048 2 40 400 false true "y" None None].

(** Plan 1 is bound to "x" in "eu-west"; the next plan id is 2. *)
Definition bound_db : plan_db :=
  mk_plan_db [mk_plan_row 1 "small" 300 512 1 10 100 false true]
    [mk_region_plan_row 1 "eu-west" "x"] [] 2 true.

(** An empty catalog with a [region_plans] row naming plan id 1, which
    the counter has not handed out yet. *)
Definition stray_binding_db : plan_db :=
  mk_plan_db [] [mk_region_plan_row 1 "eu-west" "x"] [] 1 true.

Lemma rp_matches_true planId region b :
  rp_matches planId region b = true <-> rp_plan_id b = planId /\ rp_region b = region.
Proof.
  unfold rp_matches. rewrite andb_true_iff, Z.eqb_eq, String.eqb_eq. reflexivity.
Qed.

Lemma has_binding_filter db planId region :
  has_binding db planId region <->
  List.filter (rp_matches planId region) (region_plans db) <> [].
Proof.
  unfold has_binding. split.
  - intros (b & Hin & Hp & Hr) Hnil.
    assert (In b (List.filter (rp_matches planId region) (region_plans db))) as H.
    { apply filter_In. split; [exact Hin|]. apply rp_matches_true. auto. }
    rewrite Hnil in H. destruct H.
  - destruct (List.filter (rp_matches planId region) (region_plans db)) as [|b bs] eqn:E;
      [intros H; exfalso; apply H; reflexivity|intros _].
    assert (In b (List.filter (rp_matches planId region) (region_plans db))) as H
      by (rewrite E; left; reflexivity).
    apply filter_In in H as [Hin Hm]. apply rp_matches_true in Hm as [Hp Hr].
    exists b. auto.
Qed.

Lemma left_join_region_flat region db :
  left_join_region region db = flat_map (join_rows region db) (plans db).
Proof. reflexivity. Qed.

Lemma join_rows_fst region db p row : In row (join_rows region db p) -> fst row = p.
Proof.
  unfold join_rows.
  destruct (List.filter (rp_matches (pr_id p) region) (region_plans db)) as [|b bs].
  - intros [<-|[]]. reflexivity.
  - intros H. apply in_map_iff in H as (b' & <- & _). reflexivity.
Qed.

(** A plan has a row passing the [WHERE] clause exactly when it is
    enabled and global or bound in the region. *)
Lemma join_rows_where region db p :
  (exists row, In row (join_rows region db p) /\ region_where row = true) <->
  pr_enabled p = true /\ (pr_global p = true \/ has_binding db (pr_id p) region).
Proof.
  rewrite has_binding_filter. unfold join_rows, region_where.
  destruct (List.filter (rp_matches (pr_id p) region) (region_plans db)) as [|b bs] eqn:E.
  - split.
    + intros (row & [<-|[]] & H). simpl in H.
      apply andb_true_iff in H as [He Hg]. rewrite orb_false_r in Hg. auto.
    + intros [He [Hg|Hb]]; [|exfalso; apply Hb; reflexivity].
      exists (p, None). split; [left; reflexivity|]. simpl. rewrite He, Hg. reflexivity.
  - split.
    + intros (row & Hin & H). apply in_map_iff in Hin as (b' & <- & _). simpl in H.
      apply andb_true_iff in H as [He _]. split; [exact He|]. right. discriminate.
    + intros [He _]. exists (p, Some (rp_identification b)).
      split; [left; reflexivity|]. simpl. rewrite He, orb_true_r. reflexivity.
Qed.

(** With unique bindings the left join yields exactly one row per plan. *)
Lemma left_join_one_row region db :
  bindings_unique db -> map fst (left_join_region region db) = plans db.
Proof.
  intros Hu. rewrite left_join_region_flat.
  induction (plans db) as [|p ps IH]; simpl; [reflexivity|].
  rewrite map_app, IH. unfold join_rows.
  specialize (Hu (pr_id p) region).
  destruct (List.filter (rp_matches (pr_id p) region) (region_plans db))
    as [|b [|b' bs]]; simpl in *; [reflexivity|reflexivity|lia].
Qed.

Lemma planListRegion_ids region db :
  map Id (planListRegion region db) =
  map (fun row => pr_id (fst row))
    (Sql.order_by (fun row => pr_id (fst row))
       (List.filter region_where (left_join_region region db))).
Proof.
  unfold planListRegion, planListHelper. rewrite !map_map.
  apply map_ext. intros [p o]. reflexivity.
Qed.

Lemma rp_matches_update planId region ident p' r' b :
  rp_matches p' r' (rp_update planId region ident b) = rp_matches p' r' b.
Proof. unfold rp_update. destruct (rp_matches planId region b); reflexivity. Qed.

Lemma filter_map_same {A : Type} (P : A -> bool) (f : A -> A) (l : list A) :
  (forall x, P (f x) = P x) ->
  List.filter P (map f l) = map f (List.filter P l).
Proof.
  intros Hf. induction l as [|x l IH]; simpl; [reflexivity|].
  rewrite Hf. destruct (P x); simpl; rewrite IH; reflexivity.
Qed.

(** The binding rows of every (plan, region) pair after one call. *)
Lemma planAssociateRegion_rows ri planId region ident db p' r' :
  ri !! region <> None ->
  List.filter (rp_matches p' r')
    (region_plans (fst (planAssociateRegion ri planId region ident db))) =
  if Nat.eqb (length (List.filter (rp_matches planId region) (region_plans db))) 1
  then map (rp_update planId region ident) (List.filter (rp_matches p' r') (region_plans db))
  else List.filter (rp_matches p' r') (region_plans db) ++
       List.filter (rp_matches p' r') [mk_region_plan_row planId region ident].
Proof.
  intros Hr. unfold planAssociateRegion.
  destruct (ri !! region) as [v|]; [|congruence].
  destruct (Nat.eqb _ 1); simpl.
  - apply filter_map_same. intros b. apply rp_matches_update.
  - rewrite List.filter_app. reflexivity.
Qed.

(** From at most one row, one call leaves exactly the row
    [(planId, region, identification)] for the pair. *)
Lemma planAssociateRegion_once ri planId region ident db :
  ri !! region <> None ->
  (length (List.filter (rp_matches planId region) (region_plans db)) <= 1)%nat ->
  List.filter (rp_matches planId region)
    (region_plans (fst (planAssociateRegion ri planId region ident db))) =
  [mk_region_plan_row planId region ident].
Proof.
  intros Hr Hle. rewrite planAssociateRegion_rows by exact Hr.
  assert (rp_matches planId region (mk_region_plan_row planId region ident) = true) as Hm
    by (apply rp_matches_true; auto).
  destruct (List.filter (rp_matches planId region) (region_plans db))
    as [|b [|b' bs]] eqn:E; simpl in *.
  - rewrite Hm. reflexivity.
  - assert (In b (List.filter (rp_matches planId region) (region_plans db))) as Hb
      by (rewrite E; left; reflexivity).
    apply filter_In in Hb as [_ Hb]. unfold rp_update. rewrite Hb.
    apply rp_matches_true in Hb as [-> ->]. reflexivity.
  - lia.
Qed.

(** [planAssociateRegion] keeps [bindings_unique]. *)
Lemma planAssociateRegion_bindings_unique ri planId region ident db :
  bindings_unique db ->
  bindings_unique (fst (planAssociateRegion ri planId region ident db)).
Proof.
  intros Hu p' r'.
  destruct (ri !! region) eqn:Hr;
    [|unfold planAssociateRegion; rewrite Hr; apply Hu].
  rewrite planAssociateRegion_rows by congruence.
  pose proof (Hu planId region) as H0. pose proof (Hu p' r') as H1.
  destruct (Nat.eqb _ 1) eqn:E.
  - rewrite length_map. exact H1.
  - apply Nat.eqb_neq in E.
    assert (length (List.filter (rp_matches planId region) (region_plans db)) = 0%nat)
      as H0' by lia.
    rewrite length_app. simpl.
    destruct (rp_matches p' r' (mk_region_plan_row planId region ident)) eqn:Em;
      simpl; [|lia].
    apply rp_matches_true in Em as [Hp Hq]. simpl in Hp, Hq. subst. lia.
Qed.

(** [planAutopopulate] keeps [bindings_unique]: its inserts go through
    [planAssociateRegion]. *)
Lemma planAutopopulate_bindings_unique ri res region db :
  bindings_unique db -> bindings_unique (fst (planAutopopulate ri res region db)).
Proof.
  intros Hu. unfold planAutopopulate.
  destruct (ri !! region) as [[|]|]; [exact Hu| |exact Hu].
  destruct res as [err|ps]; [exact Hu|]. simpl.
  revert db Hu. induction ps as [|plan ps IH]; intros db Hu; simpl; [exact Hu|].
  apply IH. unfold autopopulate_one.
  destruct (Nat.eqb _ 0); [|exact Hu].
  apply planAssociateRegion_bindings_unique. exact Hu.
Qed.

(** Claim C4 (code bug): what [planAssociateRegion] does. It returns the
    unknown-region error exactly when [region] is not a key of
    [regionInterfaces], and then changes nothing. Otherwise, from a state
    with at most one row for (plan, region), one call and a second identical
    call both leave exactly the row (plan, region, identification). From a
    state with two or more such rows, the [count == 1] test sends the call
    to the INSERT branch instead of updating: each call adds one more row,
    where an upsert would leave one. *)
Theorem planAssociateRegion_idempotent (ri : gmap string vm_interface)
  (planId : Z) (region ident : string) (db : plan_db) :
  snd (planAssociateRegion ri planId region ident db) =
    match ri !! region with
    | None => Some (ErrRegionNotExist region)
    | Some _ => None
    end /\
  (ri !! region = None -> fst (planAssociateRegion ri planId region ident db) = db) /\
  (ri !! region <> None ->
   (length (List.filter (rp_matches planId region) (region_plans db)) <= 1)%nat ->
   let db1 := fst (planAssociateRegion ri planId region ident db) in
   let db2 := fst (planAssociateRegion ri planId region ident db1) in
   List.filter (rp_matches planId region) (region_plans db1) =
     [mk_region_plan_row planId region ident] /\
   List.filter (rp_matches planId region) (region_plans db2) =
     [mk_region_plan_row planId region ident]) /\
  (ri !! region <> None ->
   (2 <= length (List.filter (rp_matches planId region) (region_plans db)))%nat ->
   length (List.filter (rp_matches planId region)
             (region_plans (fst (planAssociateRegion ri planId region ident db)))) =
   S (length (List.filter (rp_matches planId region) (region_plans db)))).
Proof.
  split; [|split; [|split]].
  - unfold planAssociateRegion. destruct (ri !! region); [|reflexivity].
    destruct (Nat.eqb _ 1); reflexivity.
  - intros Hr. unfold planAssociateRegion. rewrite Hr. reflexivity.
  - intros Hr Hle. cbv zeta.
    assert (H1 := planAssociateRegion_once ri planId region ident db Hr Hle).
    split; [exact H1|].
    apply planAssociateRegion_once; [exact Hr|]. rewrite H1. simpl. lia.
  - intros Hr Hge. rewrite planAssociateRegion_rows by exact Hr.
    destruct (Nat.eqb _ 1) eqn:E; [apply Nat.eqb_eq in E; lia|].
    rewrite length_app. simpl.
    assert (rp_matches planId region (mk_region_plan_row planId region ident) = true) as Hm
      by (apply rp_matches_true; auto).
    rewrite Hm. simpl. lia.
Qed.

(** Claim C4 (code bug, failing input): from [dup_binding_db], two identical calls
    leave four rows for the pair, not one. *)
Lemma planAssociateRegion_twice_from_duplicates :
  let db1 := fst (planAssociateRegion ri_us_east 1 "us-east" "ext-123" dup_binding_db) in
  let db2 := fst (planAssociateRegion ri_us_east 1 "us-east" "ext-123" db1) in
  length (List.filter (rp_matches 1 "us-east") (region_plans db2)) = 4%nat.
Proof. vm_compute. reflexivity. Qed.

Lemma filter_rp_matches_fresh (rps : list region_plan_row) (n : Z) (region : string) :
  Forall (fun b => rp_plan_id b < n) rps -> List.filter (rp_matches n region) rps = [].
Proof.
  induction 1 as [|b rps Hb _ IH]; simpl; [reflexivity|].
  destruct (rp_matches n region b) eqn:E; [|exact IH].
  apply rp_matches_true in E as [E _]. lia.
Qed.

Lemma bound_exists (region ident : string) (rps : list region_plan_row) :
  Nat.eqb (length (List.filter (rp_bound region ident) rps)) 0 = false ->
  exists b, In b rps /\ rp_bound region ident b = true.
Proof.
  intros H. destruct (List.filter (rp_bound region ident) rps) as [|b bs] eqn:E;
    [discriminate|].
  exists b. apply filter_In. rewrite E. left. reflexivity.
Qed.

(** What one iteration of the loop of [planAutopopulate] does, from a
    state satisfying [bindings_below_next]. *)
Lemma autopopulate_one_effect ri region db (plan : Plan) :
  ri !! region <> None -> bindings_below_next db ->
  let db' := autopopulate_one ri region db plan in
  (exists rows, region_plans db' = region_plans db ++ rows) /\
  (exists created, plans db' = plans db ++ created /\
                   Forall (fun p => pr_global p = false) created) /\
  bindings_below_next db' /\
  (exists b, In b (region_plans db') /\ rp_bound region (Identification plan) b = true).
Proof.
  intros Hr Hb. cbv zeta. unfold autopopulate_one.
  destruct (Nat.eqb (length (List.filter (rp_bound region (Identification plan))
                               (region_plans db))) 0) eqn:E.
  - unfold planCreate, planAssociateRegion. simpl.
    destruct (ri !! region) as [v|]; [|congruence]. simpl.
    rewrite filter_rp_matches_fresh by exact Hb. simpl.
    split; [eexists; reflexivity|]. split.
    + eexists. split; [reflexivity|]. repeat constructor.
    + split.
      * unfold bindings_below_next. simpl. apply Forall_app. split.
        -- eapply List.Forall_impl; [|exact Hb]. intros b Hlt. simpl in Hlt. lia.
        -- repeat constructor. simpl. lia.
      * eexists. split; [apply in_or_app; right; left; reflexivity|].
        unfold rp_bound. simpl. rewrite !String.eqb_refl. reflexivity.
  - split; [exists []; rewrite app_nil_r; reflexivity|].
    split; [exists []; split; [rewrite app_nil_r; reflexivity|constructor]|].
    split; [exact Hb|]. apply bound_exists. exact E.
Qed.

(** The loop of [planAutopopulate] only appends plans and binding rows,
    and leaves every provider identification bound in the region. *)
Lemma autopopulate_loop_effect ri region (ps : list Plan) :
  ri !! region <> None ->
  forall db, bindings_below_next db ->
  let db' := fold_left (autopopulate_one ri region) ps db in
  (exists created, plans db' = plans db ++ created /\
                   Forall (fun p => pr_global p = false) created) /\
  bindings_below_next db' /\
  (forall plan, In plan ps ->
     exists b, In b (region_plans db') /\ rp_bound region (Identification plan) b = true).
Proof.
  intros Hr. induction ps as [|plan ps IH]; intros db Hb; cbv zeta; simpl.
  - split; [exists []; split; [rewrite app_nil_r; reflexivity|constructor]|].
    split; [exact Hb|]. intros _ [].
  - destruct (autopopulate_one_effect ri region db plan Hr Hb)
      as (_ & (c1 & Hc1 & Hg1) & Hb1 & Hbind).
    destruct (IH _ Hb1) as ((c2 & Hc2 & Hg2) & Hb2 & Hall).
    split; [|split; [exact Hb2|]].
    + exists (c1 ++ c2). split; [rewrite Hc2, Hc1, app_assoc; reflexivity|].
      apply Forall_app. auto.
    + intros p [<-|Hin]; [|exact (Hall p Hin)].
      (* bindings made earlier are kept by the later iterations *)
      clear Hall Hc2 Hg2 Hb2 IH.
      destruct Hbind as (b & Hin & Hbd). exists b. split; [|exact Hbd].
      revert Hin Hb1. generalize (autopopulate_one ri region db plan) as d.
      induction ps as [|q qs IHq]; intros d Hin Hbd'; simpl; [exact Hin|].
      apply IHq.
      * destruct (autopopulate_one_effect ri region d q Hr Hbd') as ((rows & ->) & _).
        apply in_or_app. left. exact Hin.
      * apply (autopopulate_one_effect ri region d q Hr Hbd').
Qed.

(** When every provider identification is already bound in the region,
    the loop changes nothing. *)
Lemma autopopulate_loop_noop ri region (ps : list Plan) (db : plan_db) :
  (forall plan, In plan ps ->
     exists b, In b (region_plans db) /\ rp_bound region (Identification plan) b = true) ->
  fold_left (autopopulate_one ri region) ps db = db.
Proof.
  induction ps as [|plan ps IH]; intros Hall; simpl; [reflexivity|].
  unfold autopopulate_one at 2.
  destruct (Hall plan (or_introl eq_refl)) as (b & Hin & Hbd).
  destruct (Nat.eqb (length (List.filter (rp_bound region (Identification plan))
                               (region_plans db))) 0) eqn:E.
  - apply Nat.eqb_eq, length_zero_iff_nil in E.
    assert (In b (List.filter (rp_bound region (Identification plan)) (region_plans db)))
      as Hf by (apply filter_In; auto).
    rewrite E in Hf. destruct Hf.
  - apply IH. intros p Hp. apply Hall. right. exact Hp.
Qed.

(** Claim C5 (amended): for a region whose interface implements
    [VMIPlans], when [PlanList] returns the same list both times and no
    [region_plans] row names a plan id not yet handed out, the first run
    succeeds and only appends non-global plans, and the second run succeeds
    and changes nothing (no new plan row, no new binding row). *)
Theorem planAutopopulate_twice (ri : gmap string vm_interface) (pl : list Plan)
  (region : string) (db : plan_db)
  (Hr : ri !! region = Some VmPlanList)
  (Hb : bindings_below_next db) :
  let db1 := fst (planAutopopulate ri (inr pl) region db) in
  snd (planAutopopulate ri (inr pl) region db) = None /\
  snd (planAutopopulate ri (inr pl) region db1) = None /\
  fst (planAutopopulate ri (inr pl) region db1) = db1 /\
  (exists created, plans db1 = plans db ++ created /\
                   Forall (fun p => pr_global p = false) created).
Proof.
  cbv zeta. unfold planAutopopulate. rewrite Hr. simpl.
  assert (Hr' : ri !! region <> None) by congruence.
  destruct (autopopulate_loop_effect ri region pl Hr' db Hb) as (Hc & _ & Hall).
  split; [reflexivity|]. split; [reflexivity|]. split; [|exact Hc].
  apply autopopulate_loop_noop. exact Hall.
Qed.

Lemma planAutopopulate_twice_witness :
  ri_eu_west !! "eu-west" = Some VmPlanList /\ bindings_below_next bound_db /\
  let db1 := fst (planAutopopulate ri_eu_west (inr provider_plans) "eu-west" bound_db) in
  snd (planAutopopulate ri_eu_west (inr provider_plans) "eu-west" bound_db) = None /\
  snd (planAutopopulate ri_eu_west (inr provider_plans) "eu-west" db1) = None /\
  fst (planAutopopulate ri_eu_west (inr provider_plans) "eu-west" db1) = db1 /\
  (exists created, plans db1 = plans bound_db ++ created /\
                   Forall (fun p => pr_global p = false) created).
Proof.
  split; [reflexivity|]. split; [unfold bindings_below_next; simpl; repeat constructor|].
  apply planAutopopulate_twice; [reflexivity|].
  unfold bindings_below_next; simpl; repeat constructor.
Defined.

(** Claim C5 (counterexample): from [stray_binding_db] the first run
    skips "x", creates plan 1 for "y" and its upsert rewrites the row
    (1, "eu-west", "x") to "y"; the second run finds "x" unbound and
    creates a second plan. *)
Lemma planAutopopulate_second_run_creates :
  let db1 := fst (planAutopopulate ri_eu_west (inr provider_plans) "eu-west" stray_binding_db) in
  let db2 := fst (planAutopopulate ri_eu_west (inr provider_plans) "eu-west" db1) in
  length (plans db1) = 1%nat /\ length (plans db2) = 2%nat /\
  length (region_plans db1) = 1%nat /\ length (region_plans db2) = 2%nat.
Proof. vm_compute. repeat split. Qed.

(** Claim C8: [planDelete planId] removes the rows of plan [planId] from
    [plans] and keeps every other plan row, in order; [region_plans] and
    [plan_metadata] are unchanged, also the rows naming [planId]. *)
Theorem planDelete_frame (planId : Z) (db : plan_db) :
  plans (planDelete planId db) =
    List.filter (fun p => negb (Z.eqb (pr_id p) planId)) (plans db) /\
  (forall p, In p (plans (planDelete planId db)) <-> In p (plans db) /\ pr_id p <> planId) /\
  region_plans (planDelete planId db) = region_plans db /\
  plan_metadata (planDelete planId db) = plan_metadata db /\
  plans_next_id (planDelete planId db) = plans_next_id db.
Proof.
  split; [reflexivity|]. split; [|repeat split].
  intros p. simpl. rewrite filter_In, negb_true_iff, Z.eqb_neq. reflexivity.
Qed.

(** Claim C1: [planListRegion region] lists exactly the plans that are
    enabled and either global or bound to [region] by a [region_plans] row,
    by ascending plan id; every plan appears once when the plan ids are
    unique and no (plan, region) pair has two binding rows. *)
Theorem planListRegion_exact (region : string) (db : plan_db) :
  (forall i, In i (map Id (planListRegion region db)) <->
     exists p, In p (plans db) /\ pr_id p = i /\ pr_enabled p = true /\
               (pr_global p = true \/ has_binding db (pr_id p) region)) /\
  Sorted Z.le (map Id (planListRegion region db)) /\
  (plan_db_wf db -> NoDup (map Id (planListRegion region db))).
Proof.
  rewrite planListRegion_ids. split; [|split].
  - intros i. rewrite in_map_iff. split.
    + intros (row & Hi & Hin). apply (Permutation_in _ (Sql.order_by_perm _ _)) in Hin.
      apply filter_In in Hin as [Hin Hw]. rewrite left_join_region_flat in Hin.
      apply in_flat_map in Hin as (p & Hp & Hrow).
      pose proof (join_rows_fst _ _ _ _ Hrow) as Hf. subst.
      exists (fst row). split; [exact Hp|]. split; [reflexivity|].
      apply join_rows_where. eauto.
    + intros (p & Hp & <- & H). apply join_rows_where in H as (row & Hrow & Hw).
      exists row. rewrite (join_rows_fst _ _ _ _ Hrow). split; [reflexivity|].
      apply (Permutation_in _ (Permutation_sym (Sql.order_by_perm _ _))).
      apply filter_In. split; [|exact Hw].
      rewrite left_join_region_flat. apply in_flat_map. eauto.
  - apply Sql.sorted_map_key, Sql.order_by_sorted.
  - intros [[Hnd _] Hu].
    rewrite (Permutation_map _ (Sql.order_by_perm _ _)).
    apply Sql.nodup_map_filter.
    replace (map (fun row : plan_row * option string => pr_id (fst row))
               (left_join_region region db))
      with (map pr_id (map fst (left_join_region region db)))
      by (rewrite map_map; reflexivity).
    rewrite left_join_one_row by exact Hu. exact Hnd.
Qed.

End PlanProps.

(** * Properties of the support tickets *)
Module SupportProps.
Import Support.

(** User 7 has a provisioned account; no ticket yet. *)
Definition support_db0 : support_db :=
  mk_support_db ∅ [] (<[7 := mk_user_row "active"]> ∅) 1 1 100 "admin@example.com" [] [].

(** Customer 7 has opened ticket 1: the auto-reply is pending. *)
Definition opened_db : support_db := fst (ticketOpen support_db0 7 "Help" "hi" false).

(** Customer 7 has then closed ticket 1. *)
Definition closed_db : support_db := ticketClose opened_db 7 1.

Definition closed_ticket_view : Ticket :=
  match ticketDetails closed_db 7 1 false with
  | Some tr => tr
  | None => mkTicket 0 0 "" "" 0 0 []
  end.

(** [n] copies of [s]. *)
Fixpoint repeat_string (n : nat) (s : string) : string :=
  match n with
  | O => ""%string
  | S n' => String.append s (repeat_string n' s)
  end.

(** The number of Unicode characters of a UTF-8 string: the bytes that are
    not continuation bytes (0x80 to 0xBF). *)
Definition utf8_length (s : string) : Z :=
  Z.of_nat (length (List.filter
    (fun c => negb (andb (Nat.leb 128 (nat_of_ascii c)) (Nat.ltb (nat_of_ascii c) 192)))
    (list_ascii_of_string s))).

(** "é" in UTF-8: the bytes 0xC3 0xA9. *)
Definition e_acute : string :=
  String (ascii_of_nat 195) (String (ascii_of_nat 169) EmptyString).

Lemma ticketDetails_eq db userId ticketId staff :
  ticketDetails db userId ticketId staff =
  match tickets db !! ticketId with
  | Some t =>
      if staff || Z.eqb (t_user_id t) userId then
        Some (mkTicket ticketId (t_user_id t) (t_name t) (t_status t) (t_time t)
                (t_modify_time t) (ticket_thread db ticketId))
      else None
  | None => None
  end.
Proof.
  unfold ticketDetails, details_rows.
  destruct (tickets db !! ticketId) as [t|]; [|reflexivity].
  destruct staff; [reflexivity|]. simpl.
  destruct (Z.eqb (t_user_id t) userId); reflexivity.
Qed.

Lemma ticketDetails_some db userId ticketId staff tr :
  ticketDetails db userId ticketId staff = Some tr ->
  exists t, tickets db !! ticketId = Some t /\
            (staff = true \/ t_user_id t = userId) /\
            tr = mkTicket ticketId (t_user_id t) (t_name t) (t_status t) (t_time t)
                   (t_modify_time t) (ticket_thread db ticketId).
Proof.
  rewrite ticketDetails_eq. destruct (tickets db !! ticketId) as [t|]; [|discriminate].
  destruct (staff || Z.eqb (t_user_id t) userId) eqn:E; [|discriminate].
  intros H. injection H as <-. exists t. split; [reflexivity|]. split; [|reflexivity].
  apply orb_true_iff in E as [E|E]; [left; exact E|right; apply Z.eqb_eq; exact E].
Qed.

Lemma update_status_lookup db ticketId status t :
  tickets db !! ticketId = Some t ->
  tickets (update_status db ticketId status) !! ticketId =
  Some (mk_ticket_row (t_user_id t) (t_name t) status (t_time t) (now db)).
Proof.
  intros Ht. unfold update_status. rewrite Ht. simpl. apply lookup_insert_eq.
Qed.

Lemma update_status_pending db ticketId status :
  pending_replies (update_status db ticketId status) = pending_replies db.
Proof.
  unfold update_status. destruct (tickets db !! ticketId); reflexivity.
Qed.

(** A reply with a non-empty message to a ticket the caller can see
    succeeds, whatever the ticket's status; it sets the status and the
    modification time, and only a customer reply schedules a delayed
    reply. *)
Lemma ticketReply_ok db userId ticketId message staff tr :
  message <> ""%string ->
  ticketDetails db userId ticketId staff = Some tr ->
  exists t, tickets db !! ticketId = Some t /\
    snd (ticketReply db userId ticketId message staff) = None /\
    tickets (fst (ticketReply db userId ticketId message staff)) !! ticketId =
      Some (mk_ticket_row (t_user_id t) (t_name t)
              (if staff then "answered" else "open") (t_time t) (now db)) /\
    pending_replies (fst (ticketReply db userId ticketId message staff)) =
      pending_replies db ++ (if staff then [] else [(userId, ticketId)]).
Proof.
  intros Hm Hd. destruct (ticketDetails_some _ _ _ _ _ Hd) as (t & Ht & _ & _).
  exists t. split; [exact Ht|].
  unfold ticketReply. apply String.eqb_neq in Hm. rewrite Hm, Hd.
  destruct staff; simpl; (split; [reflexivity|]);
    (split; [erewrite update_status_lookup; [reflexivity|exact Ht]|]);
    rewrite update_status_pending; simpl; [symmetry; apply app_nil_r|reflexivity].
Qed.

Lemma ticketReply_fails db userId ticketId message staff :
  snd (ticketReply db userId ticketId message staff) = None ->
  message <> ""%string /\ exists tr, ticketDetails db userId ticketId staff = Some tr.
Proof.
  unfold ticketReply. destruct (String.eqb message "") eqn:Hm; [discriminate|].
  apply String.eqb_neq in Hm.
  destruct (ticketDetails db userId ticketId staff) as [tr|]; [|discriminate].
  intros _. eauto.
Qed.

(** Claim C2: a successful [ticketOpen] stores the new ticket with status
    "open"; a successful staff [ticketReply] sets "answered", a successful
    customer [ticketReply] sets "open"; [ticketClose] by the owner sets
    "closed" whatever the previous status. *)
Theorem ticket_status_transitions :
  (forall db userId name message staff ticketId,
     snd (ticketOpen db userId name message staff) = inr ticketId ->
     option_map t_status (tickets (fst (ticketOpen db userId name message staff)) !! ticketId)
       = Some "open"%string) /\
  (forall db userId ticketId message,
     snd (ticketReply db userId ticketId message true) = None ->
     option_map t_status (tickets (fst (ticketReply db userId ticketId message true)) !! ticketId)
       = Some "answered"%string) /\
  (forall db userId ticketId message,
     snd (ticketReply db userId ticketId message false) = None ->
     option_map t_status (tickets (fst (ticketReply db userId ticketId message false)) !! ticketId)
       = Some "open"%string) /\
  (forall db userId ticketId t,
     tickets db !! ticketId = Some t -> t_user_id t = userId ->
     tickets (ticketClose db userId ticketId) !! ticketId =
       Some (mk_ticket_row (t_user_id t) (t_name t) "closed" (t_time t) (now db))).
Proof.
  split; [|split; [|split]].
  - intros db userId name message staff ticketId. unfold ticketOpen.
    destruct (String.eqb name "" || String.eqb message ""); [discriminate|].
    destruct (Z.ltb 16384 (go_len message)); [discriminate|].
    destruct (negb staff && match users db !! userId with
                            | None => true
                            | Some u => String.eqb (u_status u) "new"
                            end); [discriminate|].
    simpl. intros H. injection H as <-.
    destruct staff; simpl; rewrite lookup_insert_eq; reflexivity.
  - intros db userId ticketId message H.
    destruct (ticketReply_fails _ _ _ _ _ H) as [Hm [tr Hd]].
    destruct (ticketReply_ok _ _ _ _ _ _ Hm Hd) as (t & _ & _ & Hl & _).
    rewrite Hl. reflexivity.
  - intros db userId ticketId message H.
    destruct (ticketReply_fails _ _ _ _ _ H) as [Hm [tr Hd]].
    destruct (ticketReply_ok _ _ _ _ _ _ Hm Hd) as (t & _ & _ & Hl & _).
    rewrite Hl. reflexivity.
  - intros db userId ticketId t Ht Hu. unfold ticketClose. rewrite Ht.
    rewrite (proj2 (Z.eqb_eq _ _) Hu). simpl. apply lookup_insert_eq.
Qed.

(** Claim C7: [ticketDetails] finds a ticket for a staff caller whenever
    the ticket exists, and for a customer only when the customer owns it;
    the ticket returned carries the row's fields and the ticket's whole
    thread, by ascending message id (strictly, message ids being unique). *)
Theorem ticketDetails_scoped (db : support_db) (userId ticketId : Z) (staff : bool) :
  (staff = true ->
   (ticketDetails db userId ticketId staff <> None <-> tickets db !! ticketId <> None)) /\
  (staff = false ->
   (ticketDetails db userId ticketId staff <> None <->
    exists t, tickets db !! ticketId = Some t /\ t_user_id t = userId)) /\
  (forall tr, ticketDetails db userId ticketId staff = Some tr ->
   exists t, tickets db !! ticketId = Some t /\
     Id tr = ticketId /\ UserId tr = t_user_id t /\ Name tr = t_name t /\
     Status tr = t_status t /\ Time tr = t_time t /\ ModifyTime tr = t_modify_time t /\
     Permutation (Messages tr)
       (map scan_message
          (List.filter (fun m => Z.eqb (m_ticket_id m) ticketId) (ticket_messages db))) /\
     Sorted Z.le (map TM.Id (Messages tr)) /\
     (NoDup (map m_id (ticket_messages db)) -> NoDup (map TM.Id (Messages tr)))).
Proof.
  split; [|split].
  - intros ->. rewrite ticketDetails_eq.
    destruct (tickets db !! ticketId); simpl; split; congruence.
  - intros ->. rewrite ticketDetails_eq.
    destruct (tickets db !! ticketId) as [t|]; simpl.
    + destruct (Z.eqb (t_user_id t) userId) eqn:E.
      * apply Z.eqb_eq in E. split; [intros _; eauto|congruence].
      * apply Z.eqb_neq in E. split; [congruence|].
        intros (t' & Ht' & Hu). injection Ht' as <-. contradiction.
    + split; [congruence|]. intros (t' & Ht' & _). discriminate.
  - intros tr Hd. destruct (ticketDetails_some _ _ _ _ _ Hd) as (t & Ht & _ & ->).
    exists t. split; [exact Ht|]. simpl.
    do 6 (split; [reflexivity|]). unfold ticket_thread.
    split; [|split].
    + apply Permutation_map, Sql.order_by_perm.
    + rewrite map_map. apply Sql.sorted_map_key, Sql.order_by_sorted.
    + intros Hnd. rewrite map_map.
      rewrite (Permutation_map _ (Sql.order_by_perm _ _)).
      apply Sql.nodup_map_filter. exact Hnd.
Qed.

(** Claim C9: a reply with a non-empty message to a closed ticket the
    caller can see succeeds and sets "answered" for staff, "open" for a
    customer. *)
Theorem ticketReply_closed (db : support_db) (userId ticketId : Z) (message : string)
  (staff : bool) (tr : Ticket)
  (Hm : message <> ""%string)
  (Hd : ticketDetails db userId ticketId staff = Some tr)
  (Hc : Status tr = "closed"%string) :
  snd (ticketReply db userId ticketId message staff) = None /\
  option_map t_status (tickets (fst (ticketReply db userId ticketId message staff)) !! ticketId)
    = Some (if staff then "answered" else "open")%string.
Proof.
  destruct (ticketReply_ok _ _ _ _ _ _ Hm Hd) as (t & _ & Hok & Hl & _).
  split; [exact Hok|]. rewrite Hl. reflexivity.
Qed.

(** Claim C10: [ticketOpen] returns a "message_too_long" error exactly
    when the subject and the body are non-empty and the body is longer than
    16,384 bytes, and that error always carries "15,000"; [ticketReply]
    has no length limit. *)
Theorem ticketOpen_too_long_error :
  (forall db userId name message staff,
     (exists a, snd (ticketOpen db userId name message staff) =
                inl (LErrorf "message_too_long" a)) <->
     name <> ""%string /\ message <> ""%string /\ 16384 < go_len message) /\
  (forall db userId name message staff a,
     snd (ticketOpen db userId name message staff) = inl (LErrorf "message_too_long" a) ->
     a = "15,000"%string) /\
  (forall db userId ticketId message staff tr,
     message <> ""%string -> ticketDetails db userId ticketId staff = Some tr ->
     snd (ticketReply db userId ticketId message staff) = None).
Proof.
  assert (Hopen : forall db userId name message staff,
    (exists a, snd (ticketOpen db userId name message staff) =
               inl (LErrorf "message_too_long" a)) <->
    (name <> ""%string /\ message <> ""%string /\ 16384 < go_len message) /\
    snd (ticketOpen db userId name message staff) =
      inl (LErrorf "message_too_long" "15,000")).
  { intros db userId name message staff. unfold ticketOpen.
    destruct (String.eqb name "") eqn:E1.
    { apply String.eqb_eq in E1. simpl. split; [intros [a Ha]; discriminate|].
      intros [(H & _) _]. contradiction. }
    destruct (String.eqb message "") eqn:E2.
    { apply String.eqb_eq in E2. simpl. split; [intros [a Ha]; discriminate|].
      intros [(_ & H & _) _]. contradiction. }
    apply String.eqb_neq in E1, E2. simpl.
    destruct (Z.ltb 16384 (go_len message)) eqn:E3.
    - apply Z.ltb_lt in E3. split; [intros _; auto|eauto].
    - apply Z.ltb_ge in E3. split; [|intros [(_ & _ & H) _]; lia].
      intros [a Ha].
      destruct (negb staff && match users db !! userId with
                              | None => true
                              | Some u => String.eqb (u_status u) "new"
                              end); simpl in Ha; congruence. }
  split; [|split].
  - intros db userId name message staff. rewrite Hopen.
    split; [intros [H _]; exact H|]. intros H. split; [exact H|].
    destruct H as (H1 & H2 & H3). unfold ticketOpen.
    apply String.eqb_neq in H1, H2. rewrite H1, H2. simpl.
    apply Z.ltb_lt in H3. rewrite H3. reflexivity.
  - intros db userId name message staff a Ha.
    assert (Hex : exists a', snd (ticketOpen db userId name message staff) =
                             inl (LErrorf "message_too_long" a')) by eauto.
    apply Hopen in Hex as [_ Hb]. rewrite Ha in Hb. congruence.
  - intros db userId ticketId message staff tr Hm Hd.
    destruct (ticketReply_ok _ _ _ _ _ _ Hm Hd) as (t & _ & Hok & _). exact Hok.
Qed.

(** Claim C3 (amended): [ticketOpen] checks in this order: an empty
    subject or body gives "subject_message_empty"; else a body longer than
    16,384 bytes gives "message_too_long"; else a customer caller whose
    user is missing or still "new" gives "ticket_for_support"; otherwise the
    ticket is created (a body of exactly 16,384 bytes included). *)
Theorem ticketOpen_checks (db : support_db) (userId : Z) (name message : string)
  (staff : bool) :
  (name = ""%string \/ message = ""%string ->
   snd (ticketOpen db userId name message staff) = inl (LError "subject_message_empty")) /\
  (name <> ""%string -> message <> ""%string -> 16384 < go_len message ->
   snd (ticketOpen db userId name message staff) =
     inl (LErrorf "message_too_long" "15,000")) /\
  (name <> ""%string -> message <> ""%string -> go_len message <= 16384 ->
   staff = false ->
   (users db !! userId = None \/
    exists u, users db !! userId = Some u /\ u_status u = "new"%string) ->
   snd (ticketOpen db userId name message staff) =
     inl (LErrorf "ticket_for_support" (admin_email db))) /\
  (name <> ""%string -> message <> ""%string -> go_len message <= 16384 ->
   (staff = true \/
    exists u, users db !! userId = Some u /\ u_status u <> "new"%string) ->
   snd (ticketOpen db userId name message staff) = inr (tickets_next_id db)).
Proof.
  unfold ticketOpen. split; [|split; [|split]].
  - intros [->| ->]; [reflexivity|].
    rewrite orb_true_r. reflexivity.
  - intros H1 H2 H3. apply String.eqb_neq in H1, H2. rewrite H1, H2. simpl.
    apply Z.ltb_lt in H3. rewrite H3. reflexivity.
  - intros H1 H2 H3 -> Hu. apply String.eqb_neq in H1, H2. rewrite H1, H2. simpl.
    apply Z.ltb_ge in H3. rewrite H3.
    destruct Hu as [-> | (u & -> & Hs)]; [reflexivity|].
    rewrite Hs. reflexivity.
  - intros H1 H2 H3 Hu. apply String.eqb_neq in H1, H2. rewrite H1, H2. simpl.
    apply Z.ltb_ge in H3. rewrite H3.
    destruct Hu as [-> | (u & -> & Hs)]; [reflexivity|].
    apply String.eqb_neq in Hs. rewrite Hs. destruct staff; reflexivity.
Qed.

(** Claim C6 (amended): a delayed automatic reply, when it fires, is
    removed from the pending replies and schedules none (it is a staff
    reply); on an existing ticket, closed or not, it succeeds and sets the
    status "answered"; on a missing ticket it fails with "invalid_ticket". *)
Theorem fire_pending_effect (db : support_db) (k : nat) (userId ticketId : Z)
  (Hk : pending_replies db !! k = Some (userId, ticketId)) :
  exists db' e, fire_pending db k = Some (db', e) /\
    pending_replies db' = delete k (pending_replies db) /\
    (forall t, tickets db !! ticketId = Some t ->
       e = None /\
       tickets db' !! ticketId =
         Some (mk_ticket_row (t_user_id t) (t_name t) "answered" (t_time t) (now db))) /\
    (tickets db !! ticketId = None -> e = Some (LError "invalid_ticket")).
Proof.
  unfold fire_pending. rewrite Hk.
  set (db0 := set_pending db (delete k (pending_replies db))).
  destruct (ticketReply db0 userId ticketId auto_reply_message true) as [db' e] eqn:Hr.
  exists db', e. split; [reflexivity|].
  assert (Hm : auto_reply_message <> ""%string) by discriminate.
  destruct (tickets db !! ticketId) as [t|] eqn:Ht.
  - assert (Hd : ticketDetails db0 userId ticketId true <> None).
    { rewrite ticketDetails_eq. simpl. rewrite Ht. discriminate. }
    destruct (ticketDetails db0 userId ticketId true) as [tr|] eqn:Hd'; [|congruence].
    destruct (ticketReply_ok _ _ _ _ _ _ Hm Hd') as (t' & Ht' & Hok & Hl & Hp).
    rewrite Hr in Hok, Hl, Hp. simpl in Ht', Hok, Hl, Hp.
    rewrite Ht in Ht'. injection Ht' as <-.
    split; [rewrite Hp; apply app_nil_r|].
    split; [|discriminate].
    intros t' Ht'. injection Ht' as <-. split; [exact Hok|exact Hl].
  - assert (Hd : ticketDetails db0 userId ticketId true = None).
    { rewrite ticketDetails_eq. simpl. rewrite Ht. reflexivity. }
    unfold ticketReply in Hr. rewrite Hd in Hr.
    destruct (String.eqb auto_reply_message "") eqn:E;
      [apply String.eqb_eq in E; contradiction|].
    injection Hr as <- <-.
    split; [reflexivity|]. split; [discriminate|]. reflexivity.
Qed.

Lemma ticketReply_closed_witness :
  "thanks"%string <> ""%string /\
  ticketDetails closed_db 7 1 false = Some closed_ticket_view /\
  Status closed_ticket_view = "closed"%string /\
  snd (ticketReply closed_db 7 1 "thanks" false) = None /\
  option_map t_status (tickets (fst (ticketReply closed_db 7 1 "thanks" false)) !! 1)
    = Some "open"%string.
Proof.
  split; [discriminate|]. split; [vm_compute; reflexivity|].
  split; [vm_compute; reflexivity|].
  apply (ticketReply_closed closed_db 7 1 "thanks" false closed_ticket_view);
    [discriminate|vm_compute; reflexivity|vm_compute; reflexivity].
Defined.

Lemma fire_pending_effect_witness :
  pending_replies opened_db !! 0%nat = Some (7, 1) /\
  exists db' e, fire_pending opened_db 0%nat = Some (db', e) /\
    pending_replies db' = delete 0%nat (pending_replies opened_db) /\
    (forall t, tickets opened_db !! 1 = Some t ->
       e = None /\
       tickets db' !! 1 =
         Some (mk_ticket_row (t_user_id t) (t_name t) "answered" (t_time t) (now opened_db))) /\
    (tickets opened_db !! 1 = None -> e = Some (LError "invalid_ticket")).
Proof.
  split; [vm_compute; reflexivity|].
  apply (fire_pending_effect opened_db 0 7 1). vm_compute. reflexivity.
Defined.

(** Claim C6 (counterexample): the auto-reply scheduled by customer 7's
    ticket fires, marks the ticket "answered" and leaves no reply pending,
    so nothing is re-armed; fired after the customer closed the ticket, it
    still marks it "answered". *)
Lemma auto_reply_not_rearmed :
  option_map (fun r => pending_replies (fst r)) (fire_pending opened_db 0%nat) = Some [] /\
  option_map (fun r => option_map t_status (tickets (fst r) !! 1))
    (fire_pending opened_db 0%nat) = Some (Some "answered"%string) /\
  option_map (fun r => option_map t_status (tickets (fst r) !! 1))
    (fire_pending closed_db 0%nat) = Some (Some "answered"%string).
Proof. vm_compute. repeat split. Qed.

(** Claim C3 (counterexample): with an empty subject a 16,385-byte body
    gets the empty-input error, not the too-long one; and a body of
    16,384 characters "é" (32,768 bytes) from the provisioned user 7 is
    rejected as too long. *)
Lemma ticketOpen_checks_counterexample :
  snd (ticketOpen support_db0 7 "" (repeat_string (Z.to_nat 16385) "a") false) =
    inl (LError "subject_message_empty") /\
  utf8_length (repeat_string (Z.to_nat 16384) e_acute) = 16384 /\
  snd (ticketOpen support_db0 7 "Help" (repeat_string (Z.to_nat 16384) e_acute) false) =
    inl (LErrorf "message_too_long" "15,000").
Proof. vm_compute. repeat split. Qed.

End SupportProps.

(** * More properties of the plan catalog *)
Module PlanExtra.
Import Plans PlanProps.

Lemma singleton_of_short {A : Type} (l : list A) (x : A) :
  (length l <= 1)%nat -> In x l -> l = [x].
Proof.
  destruct l as [|y [|z l]]; simpl; intros Hl Hin; [destruct Hin| |lia].
  destruct Hin as [->|[]]. reflexivity.
Qed.

Lemma nodup_filter_key_short {A : Type} (f : A -> Z) (P : A -> bool) (i : Z) (l : list A) :
  NoDup (map f l) ->
  (length (List.filter (fun x => Z.eqb (f x) i && P x) l) <= 1)%nat.
Proof.
  induction l as [|x l IH]; simpl; intros Hnd; [lia|].
  apply NoDup_cons in Hnd as [Hnin Hnd].
  destruct (Z.eqb (f x) i && P x) eqn:E; simpl; [|auto].
  apply andb_true_iff in E as [E _]. apply Z.eqb_eq in E.
  assert (List.filter (fun x => Z.eqb (f x) i && P x) l = []) as ->; [|simpl; lia].
  destruct (List.filter (fun x => Z.eqb (f x) i && P x) l) as [|y ys] eqn:Ey; [reflexivity|].
  exfalso. assert (In y (List.filter (fun x => Z.eqb (f x) i && P x) l)) as Hy
    by (rewrite Ey; left; reflexivity).
  apply filter_In in Hy as [Hy Hq]. apply andb_true_iff in Hq as [Hq _].
  apply Z.eqb_eq in Hq. apply Hnin. apply list_elem_of_In.
  rewrite E, <- Hq. apply in_map. exact Hy.
Qed.

(** The rows behind [planListRegion]. *)
Lemma planListRegion_rows region db p :
  In p (planListRegion region db) <->
  exists row, In row (left_join_region region db) /\ region_where row = true /\
              p = scan_plan (fst row, ifnull (snd row)).
Proof.
  unfold planListRegion, planListHelper. rewrite map_map, in_map_iff. split.
  - intros (row & <- & Hin). apply (Permutation_in _ (Sql.order_by_perm _ _)) in Hin.
    apply filter_In in Hin as [Hin Hw]. eauto.
  - intros (row & Hin & Hw & ->). exists row. split; [reflexivity|].
    apply (Permutation_in _ (Permutation_sym (Sql.order_by_perm _ _))).
    apply filter_In. auto.
Qed.

Lemma planListRegion_mem region db i :
  In i (map Id (planListRegion region db)) <->
  exists p, In p (plans db) /\ pr_id p = i /\ pr_enabled p = true /\
            (pr_global p = true \/ has_binding db (pr_id p) region).
Proof.
  rewrite in_map_iff. split.
  - intros (x & <- & Hx). apply planListRegion_rows in Hx as (row & Hin & Hw & ->).
    rewrite left_join_region_flat in Hin. apply in_flat_map in Hin as (p & Hp & Hrow).
    pose proof (join_rows_fst _ _ _ _ Hrow) as Hf. subst p.
    exists (fst row). split; [exact Hp|]. split; [destruct row; reflexivity|].
    apply join_rows_where. eauto.
  - intros (p & Hp & <- & H). apply join_rows_where in H as (row & Hrow & Hw).
    exists (scan_plan (fst row, ifnull (snd row))).
    split; [rewrite (join_rows_fst _ _ _ _ Hrow); reflexivity|].
    apply planListRegion_rows. exists row. split; [|auto].
    rewrite left_join_region_flat. apply in_flat_map. eauto.
Qed.

Lemma planGetRegion_list_iff (region : string) (planId : Z) (db : plan_db) (p : Plan) :
  plan_db_wf db ->
  planGetRegion region planId db = Some p <->
  In p (planListRegion region db) /\ Id p = planId.
Proof.
  intros [[Hnd _] Hu].
  assert (Hshort : (length (List.filter (fun row => Z.eqb (pr_id (fst row)) planId &&
                                                    region_where row)
                              (left_join_region region db)) <= 1)%nat).
  { apply (nodup_filter_key_short (fun row => pr_id (fst row))).
    rewrite <- map_map, left_join_one_row by exact Hu. exact Hnd. }
  unfold planGetRegion, planListHelper. rewrite map_map. split.
  - destruct (List.filter _ (left_join_region region db)) as [|row [|row' rows]] eqn:E;
      simpl; try discriminate.
    intros H. injection H as <-.
    assert (In row (List.filter (fun row => Z.eqb (pr_id (fst row)) planId &&
                                            region_where row) (left_join_region region db)))
      as Hin by (rewrite E; left; reflexivity).
    apply filter_In in Hin as [Hin Hq]. apply andb_true_iff in Hq as [Hid Hw].
    split.
    + apply planListRegion_rows. exists row. auto.
    + destruct row. simpl. apply Z.eqb_eq. exact Hid.
  - intros [Hp Hid]. apply planListRegion_rows in Hp as (row & Hin & Hw & ->).
    rewrite (singleton_of_short _ row Hshort); [reflexivity|].
    apply filter_In. split; [exact Hin|]. rewrite Hw, andb_true_r.
    apply Z.eqb_eq. destruct row. exact Hid.
Qed.

(** [planGetRegion] and [planListRegion] agree: on a well-formed catalog
    [planGetRegion region id] returns a plan exactly when
    [planListRegion region] lists that plan, with id [id]. *)
Theorem planGetRegion_in_list (region : string) (planId : Z) (db : plan_db) (p : Plan)
  (Hwf : plan_db_wf db) :
  planGetRegion region planId db = Some p <->
  In p (planListRegion region db) /\ Id p = planId.
Proof. apply planGetRegion_list_iff. exact Hwf. Qed.

(** [planGet id] on a catalog with unique plan ids returns the plan row
    with that id (with an empty identification), and nil when there is
    none. *)
Theorem planGet_spec (planId : Z) (db : plan_db) (p : Plan)
  (Hids : NoDup (map pr_id (plans db))) :
  planGet planId db = Some p <->
  exists row, In row (plans db) /\ pr_id row = planId /\ p = scan_plan (row, ""%string).
Proof.
  assert (Hshort : (length (List.filter (fun row => Z.eqb (pr_id row) planId && true)
                              (plans db)) <= 1)%nat)
    by (apply nodup_filter_key_short; exact Hids).
  assert (Hf : List.filter (fun row => Z.eqb (pr_id row) planId) (plans db) =
               List.filter (fun row => Z.eqb (pr_id row) planId && true) (plans db)).
  { apply filter_ext. intros a. rewrite andb_true_r. reflexivity. }
  unfold planGet, planListHelper. rewrite map_map, Hf. split.
  - destruct (List.filter _ (plans db)) as [|row [|row' rows]] eqn:E;
      simpl; try discriminate.
    intros H. injection H as <-. exists row.
    assert (In row (List.filter (fun row => Z.eqb (pr_id row) planId && true) (plans db)))
      as Hin by (rewrite E; left; reflexivity).
    apply filter_In in Hin as [Hin Hq]. rewrite andb_true_r, Z.eqb_eq in Hq. auto.
  - intros (row & Hin & Hid & ->).
    rewrite (singleton_of_short _ row Hshort); [reflexivity|].
    apply filter_In. rewrite andb_true_r, Z.eqb_eq. auto.
Qed.

(** Every row of the left join carries a plan of the table. *)
Lemma left_join_region_plan region db row :
  In row (left_join_region region db) -> In (fst row) (plans db).
Proof.
  rewrite left_join_region_flat. intros H. apply in_flat_map in H as (p & Hp & Hrow).
  rewrite (join_rows_fst _ _ _ _ Hrow). exact Hp.
Qed.

(** The [UPDATE plans SET enabled = ? WHERE id = ?] on one row. *)
Definition set_enabled (planId : Z) (e : bool) (p : plan_row) : plan_row :=
  if Z.eqb (pr_id p) planId then
    mk_plan_row (pr_id p) (pr_name p) (pr_price p) (pr_ram p) (pr_cpu p)
      (pr_storage p) (pr_bandwidth p) (pr_global p) e
  else p.

Lemma planEnable_set_enabled planId db :
  planEnable planId db = set_plans db (map (set_enabled planId true) (plans db)).
Proof. reflexivity. Qed.

Lemma planDisable_set_enabled planId db :
  planDisable planId db = set_plans db (map (set_enabled planId false) (plans db)).
Proof. reflexivity. Qed.

Lemma visible_set_enabled planId e db region i :
  In i (map Id (planListRegion region
                  (set_plans db (map (set_enabled planId e) (plans db))))) <->
  exists p, In p (plans db) /\ pr_id p = i /\
            (if Z.eqb i planId then e else pr_enabled p) = true /\
            (pr_global p = true \/ has_binding db i region).
Proof.
  rewrite planListRegion_mem. simpl. split.
  - intros (q & Hq & <- & He & Hg). apply in_map_iff in Hq as (p & <- & Hp).
    exists p. unfold set_enabled in *.
    destruct (Z.eqb (pr_id p) planId) eqn:E; simpl in *; rewrite ?E; auto.
  - intros (p & Hp & <- & He & Hg). exists (set_enabled planId e p).
    split; [apply in_map; exact Hp|]. unfold set_enabled in *.
    destruct (Z.eqb (pr_id p) planId) eqn:E; simpl in *; auto.
Qed.

(** [planDisable id] takes plan [id] out of the listing of every region
    and leaves the visibility of every other plan as it was. *)
Theorem planDisable_hides (planId : Z) (db : plan_db) (region : string) :
  ~ In planId (map Id (planListRegion region (planDisable planId db))) /\
  (forall i, i <> planId ->
     In i (map Id (planListRegion region (planDisable planId db))) <->
     In i (map Id (planListRegion region db))).
Proof.
  rewrite planDisable_set_enabled. split.
  - rewrite visible_set_enabled, Z.eqb_refl. intros (p & _ & _ & H & _). discriminate.
  - intros i Hi. rewrite visible_set_enabled, planListRegion_mem.
    apply Z.eqb_neq in Hi. rewrite Hi. split.
    + intros (p & Hp & <- & He & Hg). eauto.
    + intros (p & Hp & <- & He & Hg). eauto.
Qed.

(** [planEnable id] makes plan [id] visible in a region exactly when it
    exists and is global or bound in that region, and leaves the
    visibility of every other plan as it was. *)
Theorem planEnable_shows (planId : Z) (db : plan_db) (region : string) :
  (In planId (map Id (planListRegion region (planEnable planId db))) <->
   exists p, In p (plans db) /\ pr_id p = planId /\
             (pr_global p = true \/ has_binding db planId region)) /\
  (forall i, i <> planId ->
     In i (map Id (planListRegion region (planEnable planId db))) <->
     In i (map Id (planListRegion region db))).
Proof.
  rewrite planEnable_set_enabled. split.
  - rewrite visible_set_enabled, Z.eqb_refl. split.
    + intros (p & Hp & Hi & _ & Hg). eauto.
    + intros (p & Hp & Hi & Hg). eauto.
  - intros i Hi. rewrite visible_set_enabled, planListRegion_mem.
    apply Z.eqb_neq in Hi. rewrite Hi. split.
    + intros (p & Hp & <- & He & Hg). eauto.
    + intros (p & Hp & <- & He & Hg). eauto.
Qed.

Lemma planAssociateRegion_plans ri planId region ident db :
  plans (fst (planAssociateRegion ri planId region ident db)) = plans db /\
  plans_next_id (fst (planAssociateRegion ri planId region ident db)) = plans_next_id db.
Proof.
  unfold planAssociateRegion. destruct (ri !! region); [|auto].
  destruct (Nat.eqb _ 1); simpl; auto.
Qed.

(** On a well-formed catalog, associating an enabled plan with a known
    region makes [planGetRegion] return that plan for the region, carrying
    the new identification. *)
Theorem planAssociateRegion_get (ri : gmap string vm_interface) (planId : Z)
  (region ident : string) (db : plan_db) (row : plan_row)
  (Hwf : plan_db_wf db) (Hr : ri !! region <> None)
  (Hrow : In row (plans db)) (Hid : pr_id row = planId) (Hen : pr_enabled row = true) :
  planGetRegion region planId (fst (planAssociateRegion ri planId region ident db)) =
  Some (scan_plan (row, ident)).
Proof.
  set (db' := fst (planAssociateRegion ri planId region ident db)).
  destruct (planAssociateRegion_plans ri planId region ident db) as [Hp Hn].
  destruct Hwf as [[Hnd Hlt] Hu].
  assert (Hwf' : plan_db_wf db').
  { split; [split|].
    - unfold db'. rewrite Hp. exact Hnd.
    - unfold db'. rewrite Hp, Hn. exact Hlt.
    - apply planAssociateRegion_bindings_unique. exact Hu. }
  apply planGetRegion_list_iff; [exact Hwf'|]. split; [|destruct row; exact Hid].
  apply planListRegion_rows. exists (row, Some ident). split; [|split].
  - rewrite left_join_region_flat. apply in_flat_map. exists row.
    split; [unfold db'; rewrite Hp; exact Hrow|].
    unfold join_rows. rewrite Hid.
    unfold db'. rewrite planAssociateRegion_once by (exact Hr || apply Hu).
    left. reflexivity.
  - unfold region_where. simpl. rewrite Hen, orb_true_r. reflexivity.
  - reflexivity.
Qed.

(** After [planDeassociateRegion id region] no row binds plan [id] in
    [region], a non-global plan [id] is no longer listed there, and the
    rows of every other (plan, region) pair are kept. *)
Theorem planDeassociateRegion_effect (planId : Z) (region : string) (db : plan_db) :
  ~ has_binding (planDeassociateRegion planId region db) planId region /\
  ((forall p, In p (plans db) -> pr_id p = planId -> pr_global p = false) ->
   ~ In planId (map Id (planListRegion region (planDeassociateRegion planId region db)))) /\
  (forall p' r', (p', r') <> (planId, region) ->
   List.filter (rp_matches p' r') (region_plans (planDeassociateRegion planId region db)) =
   List.filter (rp_matches p' r') (region_plans db)).
Proof.
  assert (Hnone : ~ has_binding (planDeassociateRegion planId region db) planId region).
  { intros (b & Hb & Hp & Hr). simpl in Hb. apply filter_In in Hb as [_ Hb].
    assert (rp_matches planId region b = true) as Hm by (apply rp_matches_true; auto).
    rewrite Hm in Hb. discriminate. }
  split; [exact Hnone|split].
  - intros Hg Hin. apply planListRegion_mem in Hin as (p & Hp & Hid & _ & [Hgl|Hb]).
    + simpl in Hp. rewrite (Hg p Hp Hid) in Hgl. discriminate.
    + rewrite Hid in Hb. exact (Hnone Hb).
  - intros p' r' Hne. simpl. induction (region_plans db) as [|b bs IH]; simpl; [reflexivity|].
    destruct (rp_matches planId region b) eqn:E; simpl.
    + apply rp_matches_true in E as [Hp Hr].
      destruct (rp_matches p' r' b) eqn:E'; [|exact IH].
      apply rp_matches_true in E' as [Hp' Hr']. exfalso. apply Hne. congruence.
    + destruct (rp_matches p' r' b); [f_equal|]; exact IH.
Qed.

(** [v, ok := plan.RegionPlans[region]] and [plan.Metadata[k]]: [None]
    when [ok] is false (also on a nil map). *)
Definition region_lookup (plan : Plan) (region : string) : option string :=
  match RegionPlans plan with Some m => m !! region | None => None end.
Definition metadata_lookup (plan : Plan) (k : string) : option string :=
  match Metadata plan with Some m => m !! k | None => None end.

(** Filling a map row by row: a key holds the value of the last row
    with that key. *)
Lemma fold_insert_lookup {A : Type} (kf vf : A -> string) (l : list A)
  (m0 : gmap string string) (key : string) :
  fold_left (fun m b => <[kf b := vf b]> m) l m0 !! key =
  match hd_error (rev (List.filter (fun b => String.eqb (kf b) key) l)) with
  | Some b => Some (vf b)
  | None => m0 !! key
  end.
Proof.
  induction l as [|x l IH] using rev_ind; [reflexivity|].
  rewrite fold_left_app, List.filter_app, rev_app_distr. simpl.
  destruct (String.eqb (kf x) key) eqn:E; simpl.
  - apply String.eqb_eq in E. subst key. apply lookup_insert_eq.
  - apply String.eqb_neq in E. rewrite lookup_insert_ne by exact E. exact IH.
Qed.

Lemma filter_filter_andb {A : Type} (P Q : A -> bool) (l : list A) :
  List.filter Q (List.filter P l) = List.filter (fun x => P x && Q x) l.
Proof.
  induction l as [|x l IH]; simpl; [reflexivity|].
  destruct (P x); simpl; [destruct (Q x); simpl|]; rewrite IH; reflexivity.
Qed.

Lemma region_lookup_load db plan region :
  Global plan = false ->
  region_lookup (LoadRegionPlans db plan) region =
  option_map rp_identification
    (hd_error (rev (List.filter (rp_matches (Id plan) region) (region_plans db)))).
Proof.
  intros Hg. unfold region_lookup, LoadRegionPlans. rewrite Hg. simpl.
  rewrite fold_insert_lookup, filter_filter_andb. reflexivity.
Qed.

Lemma metadata_lookup_load db plan k :
  metadata_lookup (LoadMetadata db plan) k =
  option_map pm_v (hd_error (rev (List.filter (pm_matches (Id plan) k) (plan_metadata db)))).
Proof.
  unfold metadata_lookup, LoadMetadata. simpl.
  rewrite fold_insert_lookup, filter_filter_andb. reflexivity.
Qed.

Lemma map_id_on {A : Type} (f : A -> A) (l : list A) :
  (forall x, In x l -> f x = x) -> map f l = l.
Proof.
  induction l as [|x l IH]; simpl; intros H; [reflexivity|].
  rewrite H, IH by auto. reflexivity.
Qed.

(** A non-global plan loaded after [planAssociateRegion id region ident]
    (from at most one row for the pair) maps [region] to [ident]; its
    other regions load as before. *)
Theorem LoadRegionPlans_associate (ri : gmap string vm_interface) (plan : Plan)
  (region ident : string) (db : plan_db)
  (Hr : ri !! region <> None) (Hg : Global plan = false)
  (Hle : (length (List.filter (rp_matches (Id plan) region) (region_plans db)) <= 1)%nat) :
  let db' := fst (planAssociateRegion ri (Id plan) region ident db) in
  region_lookup (LoadRegionPlans db' plan) region = Some ident /\
  (forall r', r' <> region ->
   region_lookup (LoadRegionPlans db' plan) r' = region_lookup (LoadRegionPlans db plan) r').
Proof.
  cbv zeta. split.
  - rewrite region_lookup_load by exact Hg.
    rewrite planAssociateRegion_once by assumption. reflexivity.
  - intros r' Hne. rewrite !region_lookup_load by exact Hg.
    rewrite planAssociateRegion_rows by exact Hr.
    destruct (Nat.eqb _ 1).
    + rewrite map_id_on; [reflexivity|]. intros b Hb.
      apply filter_In in Hb as [_ Hb]. apply rp_matches_true in Hb as [_ Hb].
      unfold rp_update. destruct (rp_matches (Id plan) region b) eqn:E; [|reflexivity].
      apply rp_matches_true in E as [_ E]. congruence.
    + simpl. destruct (rp_matches (Id plan) r' _) eqn:E.
      * apply rp_matches_true in E as [_ E]. simpl in E. congruence.
      * rewrite app_nil_r. reflexivity.
Qed.

(** A non-global plan loaded after [planDeassociateRegion id region] has
    no entry for [region]; its other regions load as before. *)
Theorem LoadRegionPlans_deassociate (plan : Plan) (region : string) (db : plan_db)
  (Hg : Global plan = false) :
  let db' := planDeassociateRegion (Id plan) region db in
  region_lookup (LoadRegionPlans db' plan) region = None /\
  (forall r', r' <> region ->
   region_lookup (LoadRegionPlans db' plan) r' = region_lookup (LoadRegionPlans db plan) r').
Proof.
  cbv zeta. split; [|intros r' Hne]; rewrite !region_lookup_load by exact Hg;
    unfold planDeassociateRegion, set_region_plans; simpl; rewrite !filter_filter_andb.
  - rewrite (filter_ext _ (fun _ => false)); [|intros b; destruct (rp_matches _ _ b); reflexivity].
    clear. induction (region_plans db); [reflexivity|exact IHl].
  - f_equal. f_equal. f_equal. apply filter_ext. intros b.
    destruct (rp_matches (Id plan) r' b) eqn:E; [|apply andb_false_r].
    apply rp_matches_true in E as [E1 E2].
    destruct (rp_matches (Id plan) region b) eqn:E'; [|reflexivity].
    apply rp_matches_true in E' as [_ E']. congruence.
Qed.

Lemma pm_matches_true planId k r :
  pm_matches planId k r = true <-> pm_plan_id r = planId /\ pm_k r = k.
Proof.
  unfold pm_matches. rewrite andb_true_iff, Z.eqb_eq, String.eqb_eq. reflexivity.
Qed.

Lemma planSetMetadata_rows planId k v db p' k' :
  List.filter (pm_matches p' k') (plan_metadata (planSetMetadata planId k v db)) =
  if Nat.eqb (length (List.filter (pm_matches planId k) (plan_metadata db))) 1
  then map (fun r => if pm_matches planId k r
                     then mk_plan_metadata_row (pm_plan_id r) (pm_k r) v else r)
         (List.filter (pm_matches p' k') (plan_metadata db))
  else List.filter (pm_matches p' k') (plan_metadata db) ++
       List.filter (pm_matches p' k') [mk_plan_metadata_row planId k v].
Proof.
  unfold planSetMetadata. destruct (Nat.eqb _ 1); simpl.
  - apply filter_map_same. intros r. destruct (pm_matches planId k r); reflexivity.
  - rewrite List.filter_app. reflexivity.
Qed.

(** [planSetMetadata id k v] from at most one row for (id, k) leaves
    exactly one row for it, and [LoadMetadata] then maps [k] to [v] while
    every other key loads as before. *)
Theorem planSetMetadata_load (plan : Plan) (k v : string) (db : plan_db)
  (Hle : (length (List.filter (pm_matches (Id plan) k) (plan_metadata db)) <= 1)%nat) :
  let db' := planSetMetadata (Id plan) k v db in
  List.filter (pm_matches (Id plan) k) (plan_metadata db') =
    [mk_plan_metadata_row (Id plan) k v] /\
  metadata_lookup (LoadMetadata db' plan) k = Some v /\
  (forall k', k' <> k ->
   metadata_lookup (LoadMetadata db' plan) k' = metadata_lookup (LoadMetadata db plan) k').
Proof.
  cbv zeta.
  assert (Hone : List.filter (pm_matches (Id plan) k)
                   (plan_metadata (planSetMetadata (Id plan) k v db)) =
                 [mk_plan_metadata_row (Id plan) k v]).
  { rewrite planSetMetadata_rows.
    assert (pm_matches (Id plan) k (mk_plan_metadata_row (Id plan) k v) = true) as Hm
      by (apply pm_matches_true; auto).
    destruct (List.filter (pm_matches (Id plan) k) (plan_metadata db))
      as [|r [|r' rs]] eqn:E; simpl in *.
    - rewrite Hm. reflexivity.
    - assert (In r (List.filter (pm_matches (Id plan) k) (plan_metadata db))) as Hb
        by (rewrite E; left; reflexivity).
      apply filter_In in Hb as [_ Hb]. rewrite Hb.
      apply pm_matches_true in Hb as [-> ->]. reflexivity.
    - lia. }
  split; [exact Hone|split].
  - rewrite metadata_lookup_load, Hone. reflexivity.
  - intros k' Hne. rewrite !metadata_lookup_load, planSetMetadata_rows.
    destruct (Nat.eqb _ 1).
    + rewrite map_id_on; [reflexivity|]. intros r Hr.
      apply filter_In in Hr as [_ Hr]. apply pm_matches_true in Hr as [_ Hr].
      destruct (pm_matches (Id plan) k r) eqn:E; [|reflexivity].
      apply pm_matches_true in E as [_ E]. congruence.
    + simpl. destruct (pm_matches (Id plan) k' _) eqn:E.
      * apply pm_matches_true in E as [_ E]. simpl in E. congruence.
      * rewrite app_nil_r. reflexivity.
Qed.

(** After [planUnsetMetadata id k], [LoadMetadata] has no entry for [k];
    every other key loads as before. *)
Theorem planUnsetMetadata_load (plan : Plan) (k : string) (db : plan_db) :
  let db' := planUnsetMetadata (Id plan) k db in
  metadata_lookup (LoadMetadata db' plan) k = None /\
  (forall k', k' <> k ->
   metadata_lookup (LoadMetadata db' plan) k' = metadata_lookup (LoadMetadata db plan) k').
Proof.
  cbv zeta. split; [|intros k' Hne]; rewrite !metadata_lookup_load;
    unfold planUnsetMetadata, set_plan_metadata; simpl; rewrite !filter_filter_andb.
  - rewrite (filter_ext _ (fun _ => false)); [|intros r; destruct (pm_matches _ _ r); reflexivity].
    clear. induction (plan_metadata db); [reflexivity|exact IHl].
  - f_equal. f_equal. f_equal. apply filter_ext. intros r.
    destruct (pm_matches (Id plan) k' r) eqn:E; [|apply andb_false_r].
    apply pm_matches_true in E as [E1 E2].
    destruct (pm_matches (Id plan) k r) eqn:E'; [|reflexivity].
    apply pm_matches_true in E' as [_ E']. congruence.
Qed.

Lemma filter_all_true {A : Type} (P : A -> bool) (l : list A) :
  (forall x, In x l -> P x = true) -> List.filter P l = l.
Proof.
  induction l as [|x l IH]; simpl; intros H; [reflexivity|].
  rewrite H, IH by auto. reflexivity.
Qed.

Lemma filter_flat_map_le {A B : Type} (P : B -> bool) (f : A -> list B) (x : A) (l : list A) :
  In x l -> (length (List.filter P (f x)) <= length (List.filter P (flat_map f l)))%nat.
Proof.
  induction l as [|y l IH]; simpl; [intros []|].
  rewrite List.filter_app, length_app. intros [->|H]; [lia|]. specialize (IH H). lia.
Qed.

(** A plan that is enabled but has two or more [region_plans] rows for a
    region (what a race in [planAssociateRegion] leaves) is listed by
    [planListRegion] for that region, yet [planGetRegion] returns nil for
    it. *)
Theorem planGetRegion_duplicate_binding (region : string) (planId : Z) (db : plan_db)
  (row : plan_row)
  (Hrow : In row (plans db)) (Hid : pr_id row = planId) (Hen : pr_enabled row = true)
  (Hdup : (2 <= length (List.filter (rp_matches planId region) (region_plans db)))%nat) :
  In planId (map Id (planListRegion region db)) /\
  planGetRegion region planId db = None.
Proof.
  split.
  - apply planListRegion_mem. exists row. split; [exact Hrow|]. split; [exact Hid|].
    split; [exact Hen|]. right. apply has_binding_filter. rewrite Hid.
    intros E. rewrite E in Hdup. simpl in Hdup. lia.
  - set (P := fun r => Z.eqb (pr_id (fst r)) planId && region_where r).
    assert (Hall : List.filter P (join_rows region db row) = join_rows region db row).
    { unfold join_rows. rewrite Hid.
      destruct (List.filter (rp_matches planId region) (region_plans db)) as [|b bs];
        [simpl in Hdup; lia|].
      apply filter_all_true. intros r Hr. apply in_map_iff in Hr as (b' & <- & _).
      unfold P, region_where. simpl. rewrite Hid, Z.eqb_refl, Hen, orb_true_r. reflexivity. }
    assert (Hlen : (2 <= length (List.filter P (left_join_region region db)))%nat).
    { rewrite left_join_region_flat.
      eapply Nat.le_trans; [|apply (filter_flat_map_le P _ row _ Hrow)].
      rewrite Hall. unfold join_rows. rewrite Hid.
      destruct (List.filter (rp_matches planId region) (region_plans db)) as [|b bs];
        simpl in *; [lia|]. rewrite length_map. exact Hdup. }
    unfold planGetRegion, planListHelper. fold P.
    destruct (List.filter P (left_join_region region db)) as [|r1 [|r2 rs]];
      simpl in *; [reflexivity|lia|reflexivity].
Qed.

(** [planList] lists every plan row once, in increasing id order, with an
    empty identification. *)
Theorem planList_spec (db : plan_db) :
  Permutation (planList db) (map (fun p => scan_plan (p, ""%string)) (plans db)) /\
  Sorted Z.le (map Id (planList db)).
Proof.
  unfold planList, planListHelper. rewrite map_map. split.
  - apply Permutation_map, Sql.order_by_perm.
  - rewrite map_map. apply Sql.sorted_map_key, Sql.order_by_sorted.
Qed.

Lemma bound_db_wf : plan_db_wf bound_db.
Proof.
  split; [split|].
  - apply NoDup_singleton.
  - repeat constructor.
  - intros planId region. simpl. destruct (rp_matches _ _ _); simpl; lia.
Qed.

(** The plan of [bound_db] as [planGetRegion "eu-west"] returns it. *)
Definition bound_plan : Plan := mkPlan 1 "small" 300 512 1 10 100 false true "x" None None.

Lemma planGetRegion_in_list_witness :
  plan_db_wf bound_db /\
  (planGetRegion "eu-west" 1 bound_db = Some bound_plan <->
   In bound_plan (planListRegion "eu-west" bound_db) /\ Id bound_plan = 1).
Proof.
  split; [exact bound_db_wf|].
  exact (planGetRegion_in_list "eu-west" 1 bound_db bound_plan bound_db_wf).
Defined.

Lemma planGet_spec_witness :
  NoDup (map pr_id (plans bound_db)) /\
  (planGet 1 bound_db = Some (mkPlan 1 "small" 300 512 1 10 100 false true "" None None) <->
   exists row, In row (plans bound_db) /\ pr_id row = 1 /\
     mkPlan 1 "small" 300 512 1 10 100 false true "" None None = scan_plan (row, ""%string)).
Proof.
  assert (Hn : NoDup (map pr_id (plans bound_db))) by apply NoDup_singleton.
  split; [exact Hn|]. exact (planGet_spec 1 bound_db _ Hn).
Defined.

Lemma planAssociateRegion_get_witness :
  plan_db_wf bound_db /\ ri_eu_west !! "eu-west" <> None /\
  planGetRegion "eu-west" 1 (fst (planAssociateRegion ri_eu_west 1 "eu-west" "z" bound_db)) =
  Some (scan_plan (mk_plan_row 1 "small" 300 512 1 10 100 false true, "z"%string)).
Proof.
  split; [exact bound_db_wf|]. split; [discriminate|].
  apply (planAssociateRegion_get ri_eu_west 1 "eu-west" "z" bound_db
           (mk_plan_row 1 "small" 300 512 1 10 100 false true) bound_db_wf);
    [discriminate|left; reflexivity|reflexivity|reflexivity].
Defined.

Lemma LoadRegionPlans_associate_witness :
  ri_eu_west !! "eu-west" <> None /\ Global bound_plan = false /\
  (length (List.filter (rp_matches (Id bound_plan) "eu-west") (region_plans bound_db)) <= 1)%nat /\
  let db' := fst (planAssociateRegion ri_eu_west (Id bound_plan) "eu-west" "z" bound_db) in
  region_lookup (LoadRegionPlans db' bound_plan) "eu-west" = Some "z"%string /\
  (forall r', r' <> "eu-west"%string ->
   region_lookup (LoadRegionPlans db' bound_plan) r' =
   region_lookup (LoadRegionPlans bound_db bound_plan) r').
Proof.
  split; [discriminate|]. split; [reflexivity|]. split; [simpl; lia|].
  apply LoadRegionPlans_associate; [discriminate|reflexivity|simpl; lia].
Defined.

Lemma LoadRegionPlans_deassociate_witness :
  Global bound_plan = false /\
  let db' := planDeassociateRegion (Id bound_plan) "eu-west" bound_db in
  region_lookup (LoadRegionPlans db' bound_plan) "eu-west" = None /\
  (forall r', r' <> "eu-west"%string ->
   region_lookup (LoadRegionPlans db' bound_plan) r' =
   region_lookup (LoadRegionPlans bound_db bound_plan) r').
Proof.
  split; [reflexivity|]. apply LoadRegionPlans_deassociate. reflexivity.
Defined.

Lemma planSetMetadata_load_witness :
  (length (List.filter (pm_matches (Id bound_plan) "os") (plan_metadata bound_db)) <= 1)%nat /\
  let db' := planSetMetadata (Id bound_plan) "os" "linux" bound_db in
  List.filter (pm_matches (Id bound_plan) "os") (plan_metadata db') =
    [mk_plan_metadata_row (Id bound_plan) "os" "linux"] /\
  metadata_lookup (LoadMetadata db' bound_plan) "os" = Some "linux"%string /\
  (forall k', k' <> "os"%string ->
   metadata_lookup (LoadMetadata db' bound_plan) k' =
   metadata_lookup (LoadMetadata bound_db bound_plan) k').
Proof.
  split; [simpl; lia|]. apply planSetMetadata_load. simpl; lia.
Defined.

Lemma planGetRegion_duplicate_binding_witness :
  In (mk_plan_row 1 "Starter" 500 512 1 10 100 false true) (plans dup_binding_db) /\
  (2 <= length (List.filter (rp_matches 1 "us-east") (region_plans dup_binding_db)))%nat /\
  In 1 (map Id (planListRegion "us-east" dup_binding_db)) /\
  planGetRegion "us-east" 1 dup_binding_db = None.
Proof.
  assert (Hrow : In (mk_plan_row 1 "Starter" 500 512 1 10 100 false true) (plans dup_binding_db))
    by (left; reflexivity).
  assert (Hdup : (2 <= length (List.filter (rp_matches 1 "us-east")
                                 (region_plans dup_binding_db)))%nat)
    by (vm_compute; lia).
  split; [exact Hrow|]. split; [exact Hdup|].
  exact (planGetRegion_duplicate_binding "us-east" 1 dup_binding_db _ Hrow eq_refl eq_refl Hdup).
Defined.

End PlanExtra.

(** * More properties of the support tickets *)
Module SupportExtra.
Import Support SupportProps.

Section SortByProps.
Context {A : Type} (leb : A -> A -> bool).
Hypothesis leb_total : forall a b, leb a b = false -> leb b a = true.

Lemma insert_cmp_perm (x : A) (l : list A) : Permutation (Sql.insert_cmp leb x l) (x :: l).
Proof.
  induction l as [|y l IH]; simpl; [reflexivity|].
  destruct (leb x y); [reflexivity|].
  rewrite IH. apply perm_swap.
Qed.

Lemma sort_by_perm (l : list A) : Permutation (Sql.sort_by leb l) l.
Proof.
  induction l as [|x l IH]; simpl; [reflexivity|].
  rewrite insert_cmp_perm, IH. reflexivity.
Qed.

Lemma insert_cmp_hdrel (y x : A) (l : list A) :
  HdRel (fun a b => leb a b = true) y l -> leb y x = true ->
  HdRel (fun a b => leb a b = true) y (Sql.insert_cmp leb x l).
Proof.
  intros Hh Hyx. destruct l as [|z l]; simpl.
  - constructor. exact Hyx.
  - destruct (leb x z); constructor; [exact Hyx|]. inversion Hh; assumption.
Qed.

Lemma insert_cmp_sorted (x : A) (l : list A) :
  Sorted (fun a b => leb a b = true) l ->
  Sorted (fun a b => leb a b = true) (Sql.insert_cmp leb x l).
Proof.
  induction 1 as [|y l Hs IH Hh]; simpl.
  - repeat constructor.
  - destruct (leb x y) eqn:E.
    + constructor; [constructor; assumption|]. constructor. exact E.
    + constructor; [exact IH|]. apply insert_cmp_hdrel; [exact Hh|]. apply leb_total, E.
Qed.

Lemma sort_by_sorted (l : list A) : Sorted (fun a b => leb a b = true) (Sql.sort_by leb l).
Proof.
  induction l as [|x l IH]; simpl; [constructor|]. apply insert_cmp_sorted. exact IH.
Qed.
End SortByProps.

Lemma sorted_map_impl {A B : Type} (R : A -> A -> Prop) (R' : B -> B -> Prop)
  (f : A -> B) (l : list A) :
  (forall a b, R a b -> R' (f a) (f b)) -> Sorted R l -> Sorted R' (map f l).
Proof.
  intros HR. induction 1 as [|x l Hs IH Hh]; simpl; constructor; [exact IH|].
  destruct Hh as [|y l' Hxy]; simpl; constructor. apply HR, Hxy.
Qed.

Lemma map_fst_fmap {A B : Type} (l : list (A * B)) : map fst l = l.*1.
Proof. induction l as [|x l IH]; simpl; [reflexivity|]. rewrite IH. reflexivity. Qed.

Lemma ticket_rows_in db id row : In (id, row) (ticket_rows db) <-> tickets db !! id = Some row.
Proof. unfold ticket_rows. rewrite <- list_elem_of_In. apply elem_of_map_to_list. Qed.

Lemma ticket_rows_nodup db : NoDup (map fst (ticket_rows db)).
Proof. rewrite map_fst_fmap. apply NoDup_fst_map_to_list. Qed.

Lemma scan_ticket_id row : Id (scan_ticket row) = fst row.
Proof. destruct row; reflexivity. Qed.

(** The tickets listed by [ticketListHelper] over a sorted selection of
    [ticket_rows]. *)
Lemma listed_in key P db tr :
  In tr (ticketListHelper (Sql.order_by key (List.filter P (ticket_rows db)))) <->
  exists id row, tickets db !! id = Some row /\ P (id, row) = true /\
                 tr = scan_ticket (id, row).
Proof.
  unfold ticketListHelper. rewrite in_map_iff. split.
  - intros ([id row] & <- & Hin).
    apply (Permutation_in _ (Sql.order_by_perm _ _)), filter_In in Hin as [Hin HP].
    apply ticket_rows_in in Hin. eauto.
  - intros (id & row & Hl & HP & ->). exists (id, row). split; [reflexivity|].
    apply (Permutation_in _ (Permutation_sym (Sql.order_by_perm _ _))), filter_In.
    split; [apply ticket_rows_in; exact Hl|exact HP].
Qed.

Lemma listed_nodup key P db :
  NoDup (map Id (ticketListHelper (Sql.order_by key (List.filter P (ticket_rows db))))).
Proof.
  unfold ticketListHelper. rewrite map_map.
  rewrite (map_ext _ fst) by exact scan_ticket_id.
  rewrite (Permutation_map fst (Sql.order_by_perm key _)).
  apply Sql.nodup_map_filter, ticket_rows_nodup.
Qed.

Lemma listed_sorted P db :
  Sorted (fun a b => ModifyTime b <= ModifyTime a)
    (ticketListHelper (Sql.order_by by_modify_desc (List.filter P (ticket_rows db)))).
Proof.
  apply (sorted_map_impl (Sql.key_le by_modify_desc)); [|apply Sql.order_by_sorted].
  intros [ia ra] [ib rb]. unfold Sql.key_le, by_modify_desc. simpl. lia.
Qed.

(** [ticketList db userId] lists each ticket of [userId] exactly once,
    and nothing else, newest modification first. *)
Theorem ticketList_spec (db : support_db) (userId : Z) :
  (forall tr, In tr (ticketList db userId) <->
     exists id row, tickets db !! id = Some row /\ t_user_id row = userId /\
                    tr = scan_ticket (id, row)) /\
  NoDup (map Id (ticketList db userId)) /\
  Sorted (fun a b => ModifyTime b <= ModifyTime a) (ticketList db userId).
Proof.
  split; [|split; [apply listed_nodup|apply listed_sorted]].
  intros tr. unfold ticketList. rewrite listed_in. split.
  - intros (id & row & Hl & HP & ->). apply Z.eqb_eq in HP. eauto.
  - intros (id & row & Hl & HP & ->). exists id, row. rewrite Z.eqb_eq. auto.
Qed.

(** [ticketListActive db userId] is the part of [ticketList db userId]
    whose status is "open" or "answered", in the same order of
    modification time. *)
Theorem ticketListActive_spec (db : support_db) (userId : Z) :
  (forall tr, In tr (ticketListActive db userId) <->
     In tr (ticketList db userId) /\
     (Status tr = "open"%string \/ Status tr = "answered"%string)) /\
  NoDup (map Id (ticketListActive db userId)) /\
  Sorted (fun a b => ModifyTime b <= ModifyTime a) (ticketListActive db userId).
Proof.
  split; [|split; [apply listed_nodup|apply listed_sorted]].
  intros tr. unfold ticketListActive, ticketList. rewrite !listed_in. split.
  - intros (id & row & Hl & HP & ->). simpl in HP.
    apply andb_true_iff in HP as [Hu Hs]. split; [exists id, row; auto|].
    simpl. apply orb_true_iff in Hs as [Hs|Hs]; apply String.eqb_eq in Hs; auto.
  - intros [(id & row & Hl & Hu & ->) Hs]. exists id, row. split; [exact Hl|].
    split; [|reflexivity]. simpl in *. rewrite Hu, andb_true_l.
    destruct Hs as [-> | ->]; reflexivity.
Qed.

Lemma all_order_leb_total a b : all_order_leb a b = false -> all_order_leb b a = true.
Proof.
  unfold all_order_leb. intros H. apply orb_false_iff in H as [H1 H2].
  apply Z.ltb_ge in H1. apply orb_true_iff.
  destruct (Z.eq_dec (status_field (t_status (snd a))) (status_field (t_status (snd b))))
    as [E|E].
  - right. rewrite E, Z.eqb_refl in *. simpl in *. apply Z.leb_gt in H2.
    apply Z.leb_le. lia.
  - left. apply Z.ltb_lt. lia.
Qed.

(** [ticketListAll db] lists every ticket exactly once, ordered by the
    rank of its status ("open", then "answered", then "closed"; any other
    status ranks before "open") and, within a rank, newest modification
    first. *)
Theorem ticketListAll_spec (db : support_db) :
  Permutation (ticketListAll db) (map scan_ticket (map_to_list (tickets db))) /\
  (forall tr, In tr (ticketListAll db) <->
     exists id row, tickets db !! id = Some row /\ tr = scan_ticket (id, row)) /\
  NoDup (map Id (ticketListAll db)) /\
  Sorted (fun a b => status_field (Status a) < status_field (Status b) \/
                     (status_field (Status a) = status_field (Status b) /\
                      ModifyTime b <= ModifyTime a)) (ticketListAll db).
Proof.
  assert (Hp : Permutation (ticketListAll db) (map scan_ticket (map_to_list (tickets db))))
    by (apply Permutation_map, sort_by_perm).
  split; [exact Hp|split; [|split]].
  - intros tr. split; [intros Htr; apply (Permutation_in _ Hp) in Htr; revert Htr
                      |intros Htr; apply (Permutation_in _ (Permutation_sym Hp)); revert Htr];
      rewrite in_map_iff.
    + intros ([id row] & <- & Hin). apply ticket_rows_in in Hin. eauto.
    + intros (id & row & Hl & ->). exists (id, row). split; [reflexivity|].
      apply ticket_rows_in. exact Hl.
  - rewrite (Permutation_map Id Hp), map_map.
    rewrite (map_ext _ fst) by exact scan_ticket_id. apply ticket_rows_nodup.
  - apply (sorted_map_impl (fun a b => all_order_leb a b = true));
      [|apply sort_by_sorted, all_order_leb_total].
    intros [ia ra] [ib rb]. unfold all_order_leb. simpl.
    rewrite orb_true_iff, andb_true_iff, Z.ltb_lt, Z.eqb_eq, Z.leb_le. tauto.
Qed.

(** The statuses the code writes. *)
Definition valid_status (s : string) : Prop :=
  s = "open"%string \/ s = "answered"%string \/ s = "closed"%string.

Definition statuses_ok (db : support_db) : Prop :=
  map_Forall (fun _ t => valid_status (t_status t)) (tickets db).

(** The message ids are unique and below the [AUTO_INCREMENT] counter. *)
Definition messages_ok (db : support_db) : Prop :=
  NoDup (map m_id (ticket_messages db)) /\
  Forall (fun m => m_id m < messages_next_id db) (ticket_messages db).

(** The message table and its counter. *)
Definition log_of (db : support_db) : list message_row * Z :=
  (ticket_messages db, messages_next_id db).

(** A step that leaves the message table alone or inserts one row. *)
Definition appends (db db' : support_db) : Prop :=
  log_of db' = log_of db \/
  exists t s m, log_of db' = (ticket_messages db ++
                              [mk_message_row (messages_next_id db) t s m (now db)],
                              messages_next_id db + 1).

Lemma update_status_frame db ticketId status :
  log_of (update_status db ticketId status) = log_of db /\
  outbox (update_status db ticketId status) = outbox db /\
  now (update_status db ticketId status) = now db.
Proof. unfold update_status. destruct (tickets db !! ticketId); auto. Qed.

Lemma ticketOpen_appends db userId name message staff :
  appends db (fst (ticketOpen db userId name message staff)).
Proof.
  unfold ticketOpen.
  destruct (String.eqb name "" || String.eqb message ""); [left; reflexivity|].
  destruct (Z.ltb 16384 (go_len message)); [left; reflexivity|].
  destruct (negb staff && _); [left; reflexivity|].
  right. do 3 eexists. destruct staff; reflexivity.
Qed.

Lemma ticketReply_appends db userId ticketId message staff :
  appends db (fst (ticketReply db userId ticketId message staff)).
Proof.
  unfold ticketReply. destruct (String.eqb message ""); [left; reflexivity|].
  destruct (ticketDetails db userId ticketId staff); [|left; reflexivity].
  right. do 3 eexists. destruct staff; simpl; rewrite (proj1 (update_status_frame _ _ _));
    reflexivity.
Qed.

Lemma ticketClose_log db userId ticketId : log_of (ticketClose db userId ticketId) = log_of db.
Proof.
  unfold ticketClose. destruct (tickets db !! ticketId); [|reflexivity].
  destruct (Z.eqb _ _); reflexivity.
Qed.

Lemma appends_ok db db' :
  appends db db' ->
  (exists new, ticket_messages db' = ticket_messages db ++ new) /\
  (messages_ok db -> messages_ok db').
Proof.
  unfold appends, log_of, messages_ok. intros [H|(t & s & m & H)]; injection H as H1 H2.
  - rewrite H1, H2. split; [exists []; symmetry; apply app_nil_r|auto].
  - rewrite H1, H2. split; [eauto|]. intros [Hnd Hlt]. split.
    + rewrite map_app. apply NoDup_app. split; [exact Hnd|]. split; [|apply NoDup_singleton].
      intros x Hx Hin. apply list_elem_of_In in Hx. apply list_elem_of_singleton in Hin.
      subst x. apply in_map_iff in Hx as (y & Hy & Hin).
      rewrite List.Forall_forall in Hlt. specialize (Hlt y Hin). simpl in Hy. lia.
    + apply List.Forall_app. split; [|constructor; [simpl; lia|constructor]].
      revert Hlt. apply List.Forall_impl. intros y Hy. simpl. lia.
Qed.

(** The message table is append-only: [ticketOpen], [ticketReply],
    [ticketClose] and a fired delayed reply only ever add rows at its end,
    and message ids stay unique and below the counter. *)
Theorem ticket_messages_append_only :
  (forall db userId name message staff,
     let db' := fst (ticketOpen db userId name message staff) in
     (exists new, ticket_messages db' = ticket_messages db ++ new) /\
     (messages_ok db -> messages_ok db')) /\
  (forall db userId ticketId message staff,
     let db' := fst (ticketReply db userId ticketId message staff) in
     (exists new, ticket_messages db' = ticket_messages db ++ new) /\
     (messages_ok db -> messages_ok db')) /\
  (forall db userId ticketId,
     let db' := ticketClose db userId ticketId in
     (exists new, ticket_messages db' = ticket_messages db ++ new) /\
     (messages_ok db -> messages_ok db')) /\
  (forall db k r, fire_pending db k = Some r ->
     (exists new, ticket_messages (fst r) = ticket_messages db ++ new) /\
     (messages_ok db -> messages_ok (fst r))).
Proof.
  split; [|split; [|split]].
  - intros. apply appends_ok, ticketOpen_appends.
  - intros. apply appends_ok, ticketReply_appends.
  - intros. apply appends_ok. left. apply ticketClose_log.
  - intros db k r. unfold fire_pending.
    destruct (pending_replies db !! k) as [[u t]|]; [|discriminate].
    intros H. injection H as <-. apply appends_ok.
    exact (ticketReply_appends (set_pending db (delete k (pending_replies db))) u t
             auto_reply_message true).
Qed.

Lemma ticketReply_statuses db userId ticketId message staff :
  statuses_ok db -> statuses_ok (fst (ticketReply db userId ticketId message staff)).
Proof.
  intros Hs. unfold ticketReply. destruct (String.eqb message ""); [exact Hs|].
  destruct (ticketDetails db userId ticketId staff); [|exact Hs].
  destruct staff; simpl; unfold update_status; simpl;
    (destruct (tickets db !! ticketId); [|exact Hs]);
    apply map_Forall_insert_2; [unfold valid_status; simpl; auto|exact Hs|
                                unfold valid_status; simpl; auto|exact Hs].
Qed.

(** Every ticket status stays "open", "answered" or "closed" through
    [ticketOpen], [ticketReply], [ticketClose] and a fired delayed reply. *)
Theorem ticket_statuses_preserved (db : support_db) (Hs : statuses_ok db) :
  (forall userId name message staff,
     statuses_ok (fst (ticketOpen db userId name message staff))) /\
  (forall userId ticketId message staff,
     statuses_ok (fst (ticketReply db userId ticketId message staff))) /\
  (forall userId ticketId, statuses_ok (ticketClose db userId ticketId)) /\
  (forall k r, fire_pending db k = Some r -> statuses_ok (fst r)).
Proof.
  split; [|split; [|split]].
  - intros. unfold ticketOpen.
    destruct (String.eqb name "" || String.eqb message ""); [exact Hs|].
    destruct (Z.ltb 16384 (go_len message)); [exact Hs|].
    destruct (negb staff && _); [exact Hs|].
    destruct staff; simpl; apply map_Forall_insert_2;
      solve [exact Hs|unfold valid_status; simpl; auto].
  - intros. apply ticketReply_statuses, Hs.
  - intros. unfold ticketClose. destruct (tickets db !! ticketId); [|exact Hs].
    destruct (Z.eqb _ _); [|exact Hs]. apply map_Forall_insert_2; [|exact Hs].
    unfold valid_status; simpl; auto.
  - intros k r. unfold fire_pending.
    destruct (pending_replies db !! k) as [[u t]|]; [|discriminate].
    intros H. injection H as <-. apply ticketReply_statuses, Hs.
Qed.


(** [ticketClose] touches only the row of its ticket: messages, mails and
    scheduled replies stay, every other ticket stays, and when the ticket
    does not exist or belongs to another user nothing changes. *)
Theorem ticketClose_frame (db : support_db) (userId ticketId : Z) :
  let db' := ticketClose db userId ticketId in
  ticket_messages db' = ticket_messages db /\ outbox db' = outbox db /\
  pending_replies db' = pending_replies db /\
  (forall id, id <> ticketId -> tickets db' !! id = tickets db !! id) /\
  ((forall t, tickets db !! ticketId = Some t -> t_user_id t <> userId) -> db' = db).
Proof.
  cbv zeta. unfold ticketClose.
  destruct (tickets db !! ticketId) as [t|] eqn:Ht; [|repeat split; auto].
  destruct (Z.eqb (t_user_id t) userId) eqn:E; [|repeat split; auto].
  simpl. repeat split.
  - intros id Hid. apply lookup_insert_ne. congruence.
  - intros H. exfalso. apply (H t eq_refl). apply Z.eqb_eq, E.
Qed.

(** Who is told: a successful [ticketOpen] returns the next ticket id and
    mails the user when staff opened it, otherwise the staff (user -1) with
    a delayed reply scheduled; a successful [ticketReply] mails likewise,
    with the ticket's subject. *)
Theorem ticket_notifications :
  (forall db userId name message staff ticketId,
     snd (ticketOpen db userId name message staff) = inr ticketId ->
     let db' := fst (ticketOpen db userId name message staff) in
     ticketId = tickets_next_id db /\
     outbox db' = outbox db ++
       [mk_mail (if staff then userId else -1) "ticketOpen" ticketId name message] /\
     pending_replies db' = pending_replies db ++
       (if staff then [] else [(userId, ticketId)])) /\
  (forall db userId ticketId message staff,
     snd (ticketReply db userId ticketId message staff) = None ->
     let db' := fst (ticketReply db userId ticketId message staff) in
     exists t, tickets db !! ticketId = Some t /\
     outbox db' = outbox db ++
       [mk_mail (if staff then userId else -1) "ticketReply" ticketId (t_name t) message] /\
     pending_replies db' = pending_replies db ++
       (if staff then [] else [(userId, ticketId)])).
Proof.
  split.
  - intros db userId name message staff ticketId. unfold ticketOpen.
    destruct (String.eqb name "" || String.eqb message ""); [discriminate|].
    destruct (Z.ltb 16384 (go_len message)); [discriminate|].
    destruct (negb staff && _); [discriminate|].
    intros H. injection H as <-. cbv zeta.
    destruct staff; simpl; (split; [reflexivity|]); split; try reflexivity.
    symmetry. apply app_nil_r.
  - intros db userId ticketId message staff Hok. cbv zeta.
    destruct (ticketReply_fails _ _ _ _ _ Hok) as [Hm [tr Hd]].
    destruct (ticketDetails_some _ _ _ _ _ Hd) as (t & Ht & _ & ->).
    exists t. split; [exact Ht|]. unfold ticketReply.
    apply String.eqb_neq in Hm. rewrite Hm, Hd.
    destruct staff; simpl; rewrite (proj1 (proj2 (update_status_frame _ _ _))),
      update_status_pending; simpl; split; try reflexivity.
    symmetry. apply app_nil_r.
Qed.

Lemma insert_by_app_last {A : Type} (key : A -> Z) (a x : A) (l : list A) :
  key a < key x -> Sql.insert_by key a (l ++ [x]) = Sql.insert_by key a l ++ [x].
Proof.
  intros Hlt. induction l as [|y l IH]; simpl.
  - replace (Z.leb (key a) (key x)) with true by (symmetry; apply Z.leb_le; lia).
    reflexivity.
  - destruct (Z.leb (key a) (key y)); [reflexivity|]. rewrite IH. reflexivity.
Qed.

(** Sorting a list whose last element has the largest key. *)
Lemma order_by_app_last {A : Type} (key : A -> Z) (l : list A) (x : A) :
  Forall (fun y => key y < key x) l ->
  Sql.order_by key (l ++ [x]) = Sql.order_by key l ++ [x].
Proof.
  induction 1 as [|a l Ha Hl IH]; simpl; [reflexivity|].
  rewrite IH. apply insert_by_app_last. exact Ha.
Qed.

Lemma ticketReply_messages db userId ticketId message staff :
  snd (ticketReply db userId ticketId message staff) = None ->
  ticket_messages (fst (ticketReply db userId ticketId message staff)) =
  ticket_messages db ++
    [mk_message_row (messages_next_id db) ticketId staff message (now db)].
Proof.
  intros Hok. destruct (ticketReply_fails _ _ _ _ _ Hok) as [Hm [tr Hd]].
  unfold ticketReply. apply String.eqb_neq in Hm. rewrite Hm, Hd.
  assert (Hu : forall d s, ticket_messages (update_status d ticketId s) = ticket_messages d)
    by (intros d s; unfold update_status; destruct (tickets d !! ticketId); reflexivity).
  destruct staff; simpl; rewrite Hu; reflexivity.
Qed.

(** A ticket just opened by [ticketOpen] (when no message row names the
    new id yet) is shown to its owner as an "open" ticket created and
    modified now, with the opening message as its only message. *)
Theorem ticketOpen_details (db : support_db) (userId : Z) (name message : string)
  (staff : bool) (ticketId : Z)
  (Hok : snd (ticketOpen db userId name message staff) = inr ticketId)
  (Hfresh : Forall (fun m => m_ticket_id m <> tickets_next_id db) (ticket_messages db)) :
  ticketDetails (fst (ticketOpen db userId name message staff)) userId ticketId false =
  Some (mkTicket ticketId userId name "open" (now db) (now db)
          [TM.mkTicketMessage (messages_next_id db) staff message (now db)]).
Proof.
  revert Hok. unfold ticketOpen.
  destruct (String.eqb name "" || String.eqb message ""); [discriminate|].
  destruct (Z.ltb 16384 (go_len message)); [discriminate|].
  destruct (negb staff && _); [discriminate|].
  intros H. assert (ticketId = tickets_next_id db) as ->
    by (destruct staff; simpl in H; congruence).
  clear H.
  assert (Hnil : List.filter (fun m => Z.eqb (m_ticket_id m) (tickets_next_id db))
                   (ticket_messages db) = []).
  { induction Hfresh as [|m l Hm Hl IH]; simpl; [reflexivity|].
    apply Z.eqb_neq in Hm. rewrite Hm. exact IH. }
  rewrite ticketDetails_eq.
  destruct staff; simpl; rewrite lookup_insert_eq, Z.eqb_refl; simpl;
    unfold ticket_thread; simpl; rewrite List.filter_app, Hnil; simpl;
    rewrite Z.eqb_refl; reflexivity.
Qed.

(** A successful [ticketReply] (message ids below the counter) adds its
    message at the end of the ticket's thread as [ticketDetails] shows it,
    and leaves the thread of every other ticket as it was. *)
Theorem ticketReply_thread (db : support_db) (userId ticketId : Z) (message : string)
  (staff : bool)
  (Hbelow : Forall (fun m => m_id m < messages_next_id db) (ticket_messages db))
  (Hok : snd (ticketReply db userId ticketId message staff) = None) :
  ticket_thread (fst (ticketReply db userId ticketId message staff)) ticketId =
    ticket_thread db ticketId ++
      [TM.mkTicketMessage (messages_next_id db) staff message (now db)] /\
  (forall t', t' <> ticketId ->
   ticket_thread (fst (ticketReply db userId ticketId message staff)) t' =
   ticket_thread db t').
Proof.
  unfold ticket_thread. rewrite (ticketReply_messages _ _ _ _ _ Hok).
  split.
  - rewrite List.filter_app. simpl. rewrite Z.eqb_refl.
    rewrite order_by_app_last, map_app; [reflexivity|].
    apply List.Forall_forall. intros y Hy. apply filter_In in Hy as [Hy _].
    rewrite List.Forall_forall in Hbelow. apply Hbelow, Hy.
  - intros t' Hne. rewrite List.filter_app. simpl.
    replace (Z.eqb ticketId t') with false by (symmetry; apply Z.eqb_neq; congruence).
    rewrite app_nil_r. reflexivity.
Qed.

Lemma opened_db_statuses : statuses_ok opened_db.
Proof.
  unfold statuses_ok.
  replace (tickets opened_db) with
    (<[1 := mk_ticket_row 7 "Help" "open" (now support_db0) (now support_db0)]>
       (∅ : gmap Z ticket_row)) by reflexivity.
  apply map_Forall_insert_2; [left; reflexivity|apply map_Forall_empty].
Qed.

Lemma ticket_statuses_preserved_witness :
  statuses_ok opened_db /\
  (forall userId name message staff,
     statuses_ok (fst (ticketOpen opened_db userId name message staff))) /\
  (forall userId ticketId message staff,
     statuses_ok (fst (ticketReply opened_db userId ticketId message staff))) /\
  (forall userId ticketId, statuses_ok (ticketClose opened_db userId ticketId)) /\
  (forall k r, fire_pending opened_db k = Some r -> statuses_ok (fst r)).
Proof.
  split; [exact opened_db_statuses|].
  exact (ticket_statuses_preserved opened_db opened_db_statuses).
Defined.

Lemma ticketOpen_details_witness :
  snd (ticketOpen support_db0 7 "Help" "hi" false) = inr 1 /\
  Forall (fun m => m_ticket_id m <> tickets_next_id support_db0) (ticket_messages support_db0) /\
  ticketDetails (fst (ticketOpen support_db0 7 "Help" "hi" false)) 7 1 false =
  Some (mkTicket 1 7 "Help" "open" 100 100 [TM.mkTicketMessage 1 false "hi" 100]).
Proof.
  split; [reflexivity|]. split; [constructor|].
  apply (ticketOpen_details support_db0 7 "Help" "hi" false 1); [reflexivity|constructor].
Defined.

Lemma ticketReply_thread_witness :
  Forall (fun m => m_id m < messages_next_id opened_db) (ticket_messages opened_db) /\
  snd (ticketReply opened_db 7 1 "more" false) = None /\
  ticket_thread (fst (ticketReply opened_db 7 1 "more" false)) 1 =
    ticket_thread opened_db 1 ++ [TM.mkTicketMessage 2 false "more" 100] /\
  (forall t', t' <> 1 ->
   ticket_thread (fst (ticketReply opened_db 7 1 "more" false)) t' = ticket_thread opened_db t').
Proof.
  assert (Hb : Forall (fun m => m_id m < messages_next_id opened_db) (ticket_messages opened_db))
    by (vm_compute; repeat constructor).
  split; [exact Hb|]. split; [reflexivity|].
  exact (ticketReply_thread opened_db 7 1 "more" false Hb eq_refl).
Defined.

End SupportExtra.

(** * Properties of the start-up sequence *)
Module MainProps.
Import Main.

(** The interface types [main] accepts. *)
Definition vm_types : list string := ["openstack"; "solusvm"; "lndynamic"; "fake"]%string.
Definition payment_types : list string := ["paypal"; "coinbase"; "fake"]%string.

(** A VM interface configuration [vm] yields the provider [vmi], whose
    construction does not stop the process. *)
Definition vm_built (vmCtor : VmInterface -> option string) (vm : VmConfig)
  (vmi : VmInterface) : Prop :=
  vm_interface_of vm = Some vmi /\ vm_construct vmCtor vmi = None.

Definition payment_built (payCtor : PaymentInterface -> option string) (p : PaymentConfig)
  (pi : PaymentInterface) : Prop :=
  payment_interface_of p = Some pi /\ payment_construct payCtor pi = None.

(** The type of [vm] is known and the provider built for it does not stop
    the process. *)
Definition vm_starts (vmCtor : VmInterface -> option string) (vm : VmConfig) : Prop :=
  In (vm_Type vm) vm_types /\
  forall vmi, vm_interface_of vm = Some vmi -> vm_construct vmCtor vmi = None.

Definition payment_starts (payCtor : PaymentInterface -> option string)
  (p : PaymentConfig) : Prop :=
  In (pay_Type p) payment_types /\
  forall pi, payment_interface_of p = Some pi -> payment_construct payCtor pi = None.

Lemma vm_interface_of_known vm : vm_interface_of vm <> None <-> In (vm_Type vm) vm_types.
Proof.
  unfold vm_interface_of, vm_types. simpl.
  destruct (String.eqb_spec (vm_Type vm) "openstack") as [E|E]; [split; auto; discriminate|].
  destruct (String.eqb_spec (vm_Type vm) "solusvm") as [E1|E1]; [split; auto; discriminate|].
  destruct (String.eqb_spec (vm_Type vm) "lndynamic") as [E2|E2]; [split; auto; discriminate|].
  destruct (String.eqb_spec (vm_Type vm) "fake") as [E3|E3]; [split; auto; discriminate|].
  split; [intros H; exfalso; apply H; reflexivity|].
  intros [H|[H|[H|[H|[]]]]]; congruence.
Qed.

Lemma payment_interface_of_known p :
  payment_interface_of p <> None <-> In (pay_Type p) payment_types.
Proof.
  unfold payment_interface_of, payment_types. simpl.
  destruct (String.eqb_spec (pay_Type p) "paypal") as [E|E]; [split; auto; discriminate|].
  destruct (String.eqb_spec (pay_Type p) "coinbase") as [E1|E1]; [split; auto; discriminate|].
  destruct (String.eqb_spec (pay_Type p) "fake") as [E2|E2]; [split; auto; discriminate|].
  split; [intros H; exfalso; apply H; reflexivity|].
  intros [H|[H|[H|[]]]]; congruence.
Qed.

Lemma register_vms_ok vmCtor vms :
  snd (register_vms vmCtor vms) = true <-> Forall (vm_starts vmCtor) vms.
Proof.
  induction vms as [|vm vms IH]; simpl; [split; auto|].
  destruct (vm_interface_of vm) as [vmi|] eqn:E.
  - destruct (vm_construct vmCtor vmi) as [err|] eqn:C.
    + split; [discriminate|]. intros H. apply List.Forall_inv in H as [_ Hc].
      rewrite (Hc vmi E) in C. discriminate.
    + destruct (register_vms vmCtor vms) as [evs ok]. simpl in *. rewrite IH. split.
      * intros H. constructor; [|exact H]. split.
        -- apply vm_interface_of_known. congruence.
        -- intros vmi' E'. rewrite E in E'. injection E' as <-. exact C.
      * intros H. exact (List.Forall_inv_tail H).
  - split; [discriminate|]. intros H. apply List.Forall_inv in H as [Hk _].
    apply vm_interface_of_known in Hk. contradiction.
Qed.

Lemma register_payments_ok payCtor ps :
  snd (register_payments payCtor ps) = true <-> Forall (payment_starts payCtor) ps.
Proof.
  induction ps as [|p ps IH]; simpl; [split; auto|].
  destruct (payment_interface_of p) as [pi|] eqn:E.
  - destruct (payment_construct payCtor pi) as [err|] eqn:C.
    + split; [discriminate|]. intros H. apply List.Forall_inv in H as [_ Hc].
      rewrite (Hc pi E) in C. discriminate.
    + destruct (register_payments payCtor ps) as [evs ok]. simpl in *. rewrite IH. split.
      * intros H. constructor; [|exact H]. split.
        -- apply payment_interface_of_known. congruence.
        -- intros pi' E'. rewrite E in E'. injection E' as <-. exact C.
      * intros H. exact (List.Forall_inv_tail H).
  - split; [discriminate|]. intros H. apply List.Forall_inv in H as [Hk _].
    apply payment_interface_of_known in Hk. contradiction.
Qed.

Lemma register_vms_no_run vmCtor vms : ~ In AppRun (fst (register_vms vmCtor vms)).
Proof.
  induction vms as [|vm vms IH]; simpl; [auto|].
  destruct (vm_interface_of vm) as [vmi|]; simpl; [|intros [H|[]]; discriminate].
  destruct (vm_construct vmCtor vmi); simpl; [intros [H|[]]; discriminate|].
  destruct (register_vms vmCtor vms) as [evs ok]. simpl in *. intros [H|H]; [discriminate|auto].
Qed.

Lemma register_payments_no_run payCtor ps : ~ In AppRun (fst (register_payments payCtor ps)).
Proof.
  induction ps as [|p ps IH]; simpl; [auto|].
  destruct (payment_interface_of p) as [pi|]; simpl; [|intros [H|[]]; discriminate].
  destruct (payment_construct payCtor pi); simpl; [intros [H|[]]; discriminate|].
  destruct (register_payments payCtor ps) as [evs ok]. simpl in *.
  intros [H|H]; [discriminate|auto].
Qed.

Lemma register_vms_all vmCtor vms vmis :
  Forall2 (vm_built vmCtor) vms vmis ->
  register_vms vmCtor vms = (zip_with RegisterVmInterface (map vm_Name vms) vmis, true).
Proof.
  induction 1 as [|vm vmi vms vmis [H Hc] _ IH]; simpl; [reflexivity|].
  rewrite H. simpl. rewrite Hc, IH. reflexivity.
Qed.

Lemma register_payments_all payCtor ps pis :
  Forall2 (payment_built payCtor) ps pis ->
  register_payments payCtor ps =
  (zip_with RegisterPaymentInterface (map pay_Name ps) pis, true).
Proof.
  induction 1 as [|p pi ps pis [H Hc] _ IH]; simpl; [reflexivity|].
  rewrite H. simpl. rewrite Hc, IH. reflexivity.
Qed.

Lemma vm_interfaces_exist vmCtor vms :
  Forall (vm_starts vmCtor) vms -> exists vmis, Forall2 (vm_built vmCtor) vms vmis.
Proof.
  induction 1 as [|vm vms [Hk Hc] _ [vmis IH]]; [exists []; constructor|].
  apply vm_interface_of_known in Hk.
  destruct (vm_interface_of vm) as [vmi|] eqn:E; [|congruence].
  exists (vmi :: vmis). constructor; [split; [exact E|exact (Hc vmi eq_refl)]|exact IH].
Qed.

Lemma payment_interfaces_exist payCtor ps :
  Forall (payment_starts payCtor) ps -> exists pis, Forall2 (payment_built payCtor) ps pis.
Proof.
  induction 1 as [|p ps [Hk Hc] _ [pis IH]]; [exists []; constructor|].
  apply payment_interface_of_known in Hk.
  destruct (payment_interface_of p) as [pi|] eqn:E; [|congruence].
  exists (pi :: pis). constructor; [split; [exact E|exact (Hc pi eq_refl)]|exact IH].
Qed.

Lemma vm_built_starts vmCtor vms vmis :
  Forall2 (vm_built vmCtor) vms vmis -> Forall (vm_starts vmCtor) vms.
Proof.
  induction 1 as [|vm vmi vms vmis [H Hc] _ IH]; constructor; [|exact IH].
  split; [apply vm_interface_of_known; congruence|].
  intros vmi' E. rewrite H in E. injection E as <-. exact Hc.
Qed.

Lemma payment_built_starts payCtor ps pis :
  Forall2 (payment_built payCtor) ps pis -> Forall (payment_starts payCtor) ps.
Proof.
  induction 1 as [|p pi ps pis [H Hc] _ IH]; constructor; [|exact IH].
  split; [apply payment_interface_of_known; congruence|].
  intros pi' E. rewrite H in E. injection E as <-. exact Hc.
Qed.

(** [main] reaches [app.Run()] exactly when [lobster.MakeLobster(cfgPath)]
    and [app.Init()] do not stop the process, the file [cfgPath + ".json"]
    reads and parses, every VM interface has type "openstack", "solusvm",
    "lndynamic" or "fake" and its provider is constructed without a fatal
    error, and every payment interface has type "paypal", "coinbase" or
    "fake" and is constructed likewise; [cfgPath] is the first argument,
    "lobster.cfg" without one. *)
Theorem main_runs_iff (args : list string) (makeLobster : string -> option string)
  (init : option string) (readFile : string -> string + string)
  (unmarshal : string -> string + InterfaceConfig)
  (vmCtor : VmInterface -> option string) (payCtor : PaymentInterface -> option string) :
  In AppRun (main args makeLobster init readFile unmarshal vmCtor payCtor) <->
  makeLobster (cfg_path args) = None /\ init = None /\
  exists bytes ic,
    readFile (String.append (cfg_path args) ".json") = inr bytes /\
    unmarshal bytes = inr ic /\
    Forall (vm_starts vmCtor) (Vm ic) /\
    Forall (payment_starts payCtor) (Payment ic).
Proof.
  unfold main.
  destruct (makeLobster (cfg_path args)) as [e|]; simpl.
  { split; [intros [H|[H|[]]]; discriminate|intros [H _]; discriminate]. }
  destruct init as [e|]; simpl.
  { split; [intros [H|[H|[H|[]]]]; discriminate|intros [_ [H _]]; discriminate]. }
  destruct (readFile (String.append (cfg_path args) ".json")) as [err|bytes].
  - simpl. split; [intros [H|[H|[H|[]]]]; discriminate|].
    intros (_ & _ & b & ic & H & _). discriminate.
  - destruct (unmarshal bytes) as [err|ic] eqn:Hu.
    + simpl. split; [intros [H|[H|[H|[]]]]; discriminate|].
      intros (_ & _ & b & ic & H & H' & _). injection H as <-. congruence.
    + pose proof (register_vms_no_run vmCtor (Vm ic)) as Hv.
      pose proof (register_payments_no_run payCtor (Payment ic)) as Hp.
      pose proof (register_vms_ok vmCtor (Vm ic)) as Hvo.
      pose proof (register_payments_ok payCtor (Payment ic)) as Hpo.
      destruct (register_vms vmCtor (Vm ic)) as [ve vok].
      destruct (register_payments payCtor (Payment ic)) as [pe pok]. simpl in *.
      split.
      * intros [H|[H|H]]; [discriminate|discriminate|].
        apply in_app_or in H as [H|H]; [contradiction|].
        destruct vok; [|destruct H].
        apply in_app_or in H as [H|H]; [contradiction|].
        destruct pok; [|destruct H].
        split; [reflexivity|]. split; [reflexivity|].
        exists bytes, ic. split; [reflexivity|]. split; [exact Hu|].
        split; [apply Hvo|apply Hpo]; reflexivity.
      * intros (_ & _ & b & ic' & Hb & Hic & Hv1 & Hp1). injection Hb as <-.
        rewrite Hu in Hic. injection Hic as <-.
        apply Hvo in Hv1. apply Hpo in Hp1. subst vok pok.
        right. right. apply in_or_app. right. apply in_or_app. right. left. reflexivity.
Qed.

Lemma register_vms_stop vmCtor pre vmis bad post :
  Forall2 (vm_built vmCtor) pre vmis ->
  vm_interface_of bad = None ->
  register_vms vmCtor (pre ++ bad :: post) =
  (zip_with RegisterVmInterface (map vm_Name pre) vmis ++ [Fatal (FatalVmType (vm_Type bad))],
   false).
Proof.
  intros H Hb. induction H as [|vm vmi vms vmis [Hv Hc] _ IH]; simpl; [rewrite Hb; reflexivity|].
  rewrite Hv. simpl. rewrite Hc, IH. reflexivity.
Qed.

Lemma register_payments_stop payCtor pre pis bad post :
  Forall2 (payment_built payCtor) pre pis ->
  payment_interface_of bad = None ->
  register_payments payCtor (pre ++ bad :: post) =
  (zip_with RegisterPaymentInterface (map pay_Name pre) pis ++
     [Fatal (FatalPaymentType (pay_Type bad))], false).
Proof.
  intros H Hb. induction H as [|p pi ps pis [Hp Hc] _ IH]; simpl; [rewrite Hb; reflexivity|].
  rewrite Hp. simpl. rewrite Hc, IH. reflexivity.
Qed.

Lemma vm_unknown_none vm : ~ In (vm_Type vm) vm_types -> vm_interface_of vm = None.
Proof.
  intros H. destruct (vm_interface_of vm) eqn:E; [|reflexivity].
  exfalso. apply H, vm_interface_of_known. congruence.
Qed.

Lemma payment_unknown_none p : ~ In (pay_Type p) payment_types -> payment_interface_of p = None.
Proof.
  intros H. destruct (payment_interface_of p) eqn:E; [|reflexivity].
  exfalso. apply H, payment_interface_of_known. congruence.
Qed.

(** When [lobster.MakeLobster] and [app.Init()] succeed, the configuration
    reads and parses, and every interface has a known type and is
    constructed without a fatal error, [main] registers every VM interface
    under its configured name, in the order of the configuration, then
    every payment interface likewise, and then runs the application. *)
Theorem main_success_trace (args : list string) (makeLobster : string -> option string)
  (init : option string) (readFile : string -> string + string)
  (unmarshal : string -> string + InterfaceConfig)
  (vmCtor : VmInterface -> option string) (payCtor : PaymentInterface -> option string)
  (bytes : string) (ic : InterfaceConfig)
  (Hl : makeLobster (cfg_path args) = None)
  (Hi : init = None)
  (Hr : readFile (String.append (cfg_path args) ".json") = inr bytes)
  (Hu : unmarshal bytes = inr ic)
  (Hv : Forall (vm_starts vmCtor) (Vm ic))
  (Hp : Forall (payment_starts payCtor) (Payment ic)) :
  exists vmis pis,
    Forall2 (vm_built vmCtor) (Vm ic) vmis /\
    Forall2 (payment_built payCtor) (Payment ic) pis /\
    main args makeLobster init readFile unmarshal vmCtor payCtor =
    [MakeLobster (cfg_path args); AppInit] ++
    zip_with RegisterVmInterface (map vm_Name (Vm ic)) vmis ++
    zip_with RegisterPaymentInterface (map pay_Name (Payment ic)) pis ++ [AppRun].
Proof.
  destruct (vm_interfaces_exist _ _ Hv) as [vmis Hvs].
  destruct (payment_interfaces_exist _ _ Hp) as [pis Hps].
  exists vmis, pis. split; [exact Hvs|]. split; [exact Hps|].
  unfold main. rewrite Hl, Hi, Hr, Hu, (register_vms_all _ _ _ Hvs),
    (register_payments_all _ _ _ Hps).
  reflexivity.
Qed.

(** At the first VM interface of unknown type (start-up and parsing having
    succeeded), [main] stops with a fatal error after registering only the
    VM interfaces before it: no payment interface is registered and the
    application does not run. *)
Theorem main_stops_at_unknown_vm (args : list string) (makeLobster : string -> option string)
  (init : option string) (readFile : string -> string + string)
  (unmarshal : string -> string + InterfaceConfig)
  (vmCtor : VmInterface -> option string) (payCtor : PaymentInterface -> option string)
  (bytes : string) (ic : InterfaceConfig)
  (pre : list VmConfig) (bad : VmConfig) (post : list VmConfig)
  (Hl : makeLobster (cfg_path args) = None)
  (Hi : init = None)
  (Hr : readFile (String.append (cfg_path args) ".json") = inr bytes)
  (Hu : unmarshal bytes = inr ic)
  (Hsplit : Vm ic = pre ++ bad :: post)
  (Hpre : Forall (vm_starts vmCtor) pre)
  (Hbad : ~ In (vm_Type bad) vm_types) :
  exists vmis,
    Forall2 (vm_built vmCtor) pre vmis /\
    main args makeLobster init readFile unmarshal vmCtor payCtor =
    [MakeLobster (cfg_path args); AppInit] ++
    zip_with RegisterVmInterface (map vm_Name pre) vmis ++
    [Fatal (FatalVmType (vm_Type bad))].
Proof.
  destruct (vm_interfaces_exist _ _ Hpre) as [vmis Hvs].
  exists vmis. split; [exact Hvs|].
  unfold main. rewrite Hl, Hi, Hr, Hu, Hsplit,
    (register_vms_stop _ _ _ _ _ Hvs (vm_unknown_none _ Hbad)).
  rewrite app_nil_r. reflexivity.
Qed.

(** At the first payment interface of unknown type (start-up and parsing
    having succeeded, every VM interface built), [main] stops with a fatal
    error after registering all VM interfaces and only the payment
    interfaces before it; the application does not run. *)
Theorem main_stops_at_unknown_payment (args : list string)
  (makeLobster : string -> option string) (init : option string)
  (readFile : string -> string + string)
  (unmarshal : string -> string + InterfaceConfig)
  (vmCtor : VmInterface -> option string) (payCtor : PaymentInterface -> option string)
  (bytes : string) (ic : InterfaceConfig)
  (pre : list PaymentConfig) (bad : PaymentConfig) (post : list PaymentConfig)
  (Hl : makeLobster (cfg_path args) = None)
  (Hi : init = None)
  (Hr : readFile (String.append (cfg_path args) ".json") = inr bytes)
  (Hu : unmarshal bytes = inr ic)
  (Hv : Forall (vm_starts vmCtor) (Vm ic))
  (Hsplit : Payment ic = pre ++ bad :: post)
  (Hpre : Forall (payment_starts payCtor) pre)
  (Hbad : ~ In (pay_Type bad) payment_types) :
  exists vmis pis,
    Forall2 (vm_built vmCtor) (Vm ic) vmis /\
    Forall2 (payment_built payCtor) pre pis /\
    main args makeLobster init readFile unmarshal vmCtor payCtor =
    [MakeLobster (cfg_path args); AppInit] ++
    zip_with RegisterVmInterface (map vm_Name (Vm ic)) vmis ++
    zip_with RegisterPaymentInterface (map pay_Name pre) pis ++
    [Fatal (FatalPaymentType (pay_Type bad))].
Proof.
  destruct (vm_interfaces_exist _ _ Hv) as [vmis Hvs].
  destruct (payment_interfaces_exist _ _ Hpre) as [pis Hps].
  exists vmis, pis. split; [exact Hvs|]. split; [exact Hps|].
  unfold main. rewrite Hl, Hi, Hr, Hu, (register_vms_all _ _ _ Hvs), Hsplit,
    (register_payments_stop _ _ _ _ _ Hps (payment_unknown_none _ Hbad)).
  rewrite app_nil_r. reflexivity.
Qed.

(** A VM and a payment interface configured with only a name and a type. *)
Definition vm_cfg (name type : string) : VmConfig :=
  mkVmConfig name type "" "" "" "" "" false "" "" "" "" "".
Definition payment_cfg (name type : string) : PaymentConfig :=
  mkPaymentConfig name type "" "" "" "" "".

(** Outcomes of the external calls: the primary configuration loads, and a
    provider constructor fails only for an LNDynamic region left empty. *)
Definition lobster_ok (cfgPath : string) : option string := None.
Definition vm_ctor (vmi : VmInterface) : option string :=
  match vmi with
  | MakeLNDynamic region _ _ =>
      if String.eqb region "" then Some "missing region"%string else None
  | _ => None
  end.
Definition payment_ctor_ok (pi : PaymentInterface) : option string := None.

Definition read_ok (path : string) : string + string := inr "{}"%string.
Definition parse_as (ic : InterfaceConfig) (bytes : string) : string + InterfaceConfig := inr ic.

Definition ln_cfg (name region : string) : VmConfig :=
  mkVmConfig name "lndynamic" "" "" "" "" "" false "" "" "" "" region.

Definition good_config : InterfaceConfig :=
  mkInterfaceConfig [vm_cfg "a" "fake"; ln_cfg "b" "toronto"] [payment_cfg "p" "fake"].
Definition bad_vm_config : InterfaceConfig :=
  mkInterfaceConfig [vm_cfg "a" "fake"; vm_cfg "b" "bogus"; vm_cfg "c" "fake"]
    [payment_cfg "p" "fake"].
Definition bad_payment_config : InterfaceConfig :=
  mkInterfaceConfig [vm_cfg "a" "fake"] [payment_cfg "p" "paypal"; payment_cfg "q" "bogus"].

Lemma main_success_trace_witness :
  lobster_ok (cfg_path ["lobster"; "site.cfg"]) = None /\
  read_ok (String.append (cfg_path ["lobster"; "site.cfg"]) ".json") = inr "{}"%string /\
  parse_as good_config "{}" = inr good_config /\
  Forall (vm_starts vm_ctor) (Vm good_config) /\
  Forall (payment_starts payment_ctor_ok) (Payment good_config) /\
  exists vmis pis,
    Forall2 (vm_built vm_ctor) (Vm good_config) vmis /\
    Forall2 (payment_built payment_ctor_ok) (Payment good_config) pis /\
    main ["lobster"; "site.cfg"] lobster_ok None read_ok (parse_as good_config)
      vm_ctor payment_ctor_ok =
    [MakeLobster (cfg_path ["lobster"; "site.cfg"]); AppInit] ++
    zip_with RegisterVmInterface (map vm_Name (Vm good_config)) vmis ++
    zip_with RegisterPaymentInterface (map pay_Name (Payment good_config)) pis ++ [AppRun].
Proof.
  assert (Hv : Forall (vm_starts vm_ctor) (Vm good_config)).
  { apply (vm_built_starts _ _ [VmFake; MakeLNDynamic "toronto" "" ""]).
    repeat constructor. }
  assert (Hp : Forall (payment_starts payment_ctor_ok) (Payment good_config)).
  { apply (payment_built_starts _ _ [FakePayment]). repeat constructor. }
  split; [reflexivity|]. split; [reflexivity|]. split; [reflexivity|].
  split; [exact Hv|]. split; [exact Hp|].
  exact (main_success_trace ["lobster"; "site.cfg"] lobster_ok None read_ok
           (parse_as good_config) vm_ctor payment_ctor_ok "{}" good_config
           eq_refl eq_refl eq_refl eq_refl Hv Hp).
Defined.

Lemma main_stops_at_unknown_vm_witness :
  Vm bad_vm_config = [vm_cfg "a" "fake"] ++ vm_cfg "b" "bogus" :: [vm_cfg "c" "fake"] /\
  ~ In (vm_Type (vm_cfg "b" "bogus")) vm_types /\
  exists vmis,
    Forall2 (vm_built vm_ctor) [vm_cfg "a" "fake"] vmis /\
    main [] lobster_ok None read_ok (parse_as bad_vm_config) vm_ctor payment_ctor_ok =
    [MakeLobster (cfg_path []); AppInit] ++
    zip_with RegisterVmInterface (map vm_Name [vm_cfg "a" "fake"]) vmis ++
    [Fatal (FatalVmType (vm_Type (vm_cfg "b" "bogus")))].
Proof.
  assert (Hb : ~ In (vm_Type (vm_cfg "b" "bogus")) vm_types)
    by (intros [H|[H|[H|[H|[]]]]]; discriminate).
  assert (Hpre : Forall (vm_starts vm_ctor) [vm_cfg "a" "fake"]).
  { apply (vm_built_starts _ _ [VmFake]). repeat constructor. }
  split; [reflexivity|]. split; [exact Hb|].
  exact (main_stops_at_unknown_vm [] lobster_ok None read_ok (parse_as bad_vm_config)
           vm_ctor payment_ctor_ok "{}" bad_vm_config
           [vm_cfg "a" "fake"] (vm_cfg "b" "bogus") [vm_cfg "c" "fake"]
           eq_refl eq_refl eq_refl eq_refl eq_refl Hpre Hb).
Defined.

Lemma main_stops_at_unknown_payment_witness :
  Payment bad_payment_config = [payment_cfg "p" "paypal"] ++ payment_cfg "q" "bogus" :: [] /\
  ~ In (pay_Type (payment_cfg "q" "bogus")) payment_types /\
  exists vmis pis,
    Forall2 (vm_built vm_ctor) (Vm bad_payment_config) vmis /\
    Forall2 (payment_built payment_ctor_ok) [payment_cfg "p" "paypal"] pis /\
    main [] lobster_ok None read_ok (parse_as bad_payment_config) vm_ctor payment_ctor_ok =
    [MakeLobster (cfg_path []); AppInit] ++
    zip_with RegisterVmInterface (map vm_Name (Vm bad_payment_config)) vmis ++
    zip_with RegisterPaymentInterface (map pay_Name [payment_cfg "p" "paypal"]) pis ++
    [Fatal (FatalPaymentType (pay_Type (payment_cfg "q" "bogus")))].
Proof.
  assert (Hb : ~ In (pay_Type (payment_cfg "q" "bogus")) payment_types)
    by (intros [H|[H|[H|[]]]]; discriminate).
  assert (Hv : Forall (vm_starts vm_ctor) (Vm bad_payment_config)).
  { apply (vm_built_starts _ _ [VmFake]). repeat constructor. }
  assert (Hpre : Forall (payment_starts payment_ctor_ok) [payment_cfg "p" "paypal"]).
  { apply (payment_built_starts _ _ [MakePaypalPayment "" ""]). repeat constructor. }
  split; [reflexivity|]. split; [exact Hb|].
  exact (main_stops_at_unknown_payment [] lobster_ok None read_ok
           (parse_as bad_payment_config) vm_ctor payment_ctor_ok "{}"
           bad_payment_config [payment_cfg "p" "paypal"] (payment_cfg "q" "bogus") []
           eq_refl eq_refl eq_refl eq_refl Hv eq_refl Hpre Hb).
Defined.

End MainProps.
